(** * Evaluation pipeline and statistics log of [pytorch/evaluate.py]

  A shallow embedding of [Evaluator.evaluate], [Evaluator.visualize] and
  [StatisticsContainer] together with the properties the specification
  states about them.

  Conventions of the embedding:
  - a Python [float] is a rational ([Q]); the program only compares
    scores, and the order of finite floats is the order of the rationals
    they denote; a threshold literal is the rational its double denotes;
  - a Python [dict] with string keys is a [gmap string _];
  - a raised exception is the [Err] branch of [result];
  - a mutable [dict] that is passed by reference lives in a store
    ([heap]) and is named by its address ([loc]);
  - calls into other modules ([forward], [sklearn.metrics], [sed_eval],
    [utilities], [matplotlib], [cPickle]) are section variables. *)

From stdpp Require Import base gmap list strings.
From Stdlib Require Import Ascii QArith ZArith Lia.

Local Open Scope string_scope.
Local Open Scope list_scope.
Local Close Scope Q_scope.

(* ===================================================================== *)
(** ** Exceptions and the error monad *)
(* ===================================================================== *)

Inductive exn :=
| NameError (name : string)          (* global name not bound *)
| UnboundLocalError (name : string)  (* local read before assignment *)
| KeyError (key : string)
| IndexError
| TypeError
| ValueError
| ExternalError (what : string).     (* raised inside a collaborator *)

(** [UnboundLocalError] is a subclass of [NameError] in Python: both are
    the "name is not defined" failure. *)
Definition is_name_error (e : exn) : bool :=
  match e with
  | NameError _ | UnboundLocalError _ => true
  | _ => false
  end.

Inductive result (A : Type) :=
| Ok (a : A)
| Err (e : exn).
Arguments Ok {A} a.
Arguments Err {A} e.

#[global] Instance result_ret : MRet result := λ A a, Ok a.
#[global] Instance result_bind : MBind result :=
  λ A B f m, match m with Ok a => f a | Err e => Err e end.

(** [d[key]] on a dict: [KeyError] when the key is absent. *)
Definition getitem {V} (d : gmap string V) (key : string) : result V :=
  match d !! key with
  | Some v => Ok v
  | None => Err (KeyError key)
  end.

(** [d[k1][k2]] on a dict of dicts. *)
Definition getitem2 {V} (d : gmap string (gmap string V)) (k1 k2 : string)
  : result V :=
  inner ← getitem d k1;
  getitem inner k2.

(** [key in d]. *)
Definition contains {V} (d : gmap string V) (key : string) : bool :=
  bool_decide (is_Some (d !! key)).

(** [l[i]] on a sequence: [IndexError] out of range. *)
Definition getindex {A} (l : list A) (i : nat) : result A :=
  match l !! i with
  | Some a => Ok a
  | None => Err IndexError
  end.

(** [for x in xs: body], threading an accumulator and stopping at the
    first exception. *)
Fixpoint for_each {A S} (xs : list A) (body : S → A → result S) (s : S)
  : result S :=
  match xs with
  | [] => Ok s
  | x :: rest => s' ← body s x; for_each rest body s'
  end.

(** Strict comparison [x > y] of two scores. *)
Definition Qgtb (x y : Q) : bool := negb (Qle_bool x y).

(* ===================================================================== *)
(** ** [os.path.splitext] *)
(* ===================================================================== *)

Module Path.

(** [p.rfind(c)]: the highest index holding [c], or [-1]. *)
Fixpoint rfind_from (c : Ascii.ascii) (p : string) (i last : Z) : Z :=
  match p with
  | EmptyString => last
  | String a rest =>
      rfind_from c rest (i + 1) (if Ascii.eqb a c then i else last)
  end.

Definition rfind (c : Ascii.ascii) (p : string) : Z := rfind_from c p 0 (-1).

(** [p[i:]] *)
Fixpoint drop_str (i : nat) (p : string) : string :=
  match i, p with
  | O, _ => p
  | S i', String _ rest => drop_str i' rest
  | S _, EmptyString => EmptyString
  end.

(** [p[:i]] *)
Definition take_str (i : nat) (p : string) : string :=
  String.substring 0 i p.

(** The loop of the library's [_splitext] that skips leading dots:
    [true] as soon as a character of [p[filenameIndex:dotIndex]] is not
    the extension separator. *)
Fixpoint has_non_dot (p : string) (filenameIndex : nat) (count : nat)
  : bool :=
  match count with
  | O => false
  | S count' =>
      match String.get filenameIndex p with
      | Some a =>
          if Ascii.eqb a "."%char
          then has_non_dot p (S filenameIndex) count'
          else true
      | None => true
      end
  end.

(** [os.path.splitext(p)] on a POSIX system ([sep = '/'], no [altsep],
    [extsep = '.']), following the standard library's [_splitext]. *)
Definition splitext (p : string) : string * string :=
  let sepIndex := rfind "/"%char p in
  let dotIndex := rfind "."%char p in
  if (sepIndex <? dotIndex)%Z
     && has_non_dot p (Z.to_nat (sepIndex + 1))
                      (Z.to_nat (dotIndex - (sepIndex + 1)))
  then (take_str (Z.to_nat dotIndex) p, drop_str (Z.to_nat dotIndex) p)
  else (p, EmptyString).

End Path.

(* ===================================================================== *)
(** ** [StatisticsContainer] *)
(* ===================================================================== *)

(** The values a statistics record holds. *)
Inductive stat_value :=
| VInt (z : Z)                         (* 'iteration' *)
| VArray (a : list Q)                  (* 'average_precision' *)
| VMetrics (m : gmap string Q).        (* 'event_metrics', 'segment_metrics' *)

(** A statistics record is a Python dict. *)
Abbreviation statistics_dict := (gmap string stat_value).

(** Addresses of dict objects. *)
Abbreviation loc := positive.

Module Log.
Section Log.

(** [cPickle]: the serialised form, [dump] and [load]. *)
Context {pickled : Type}.
Variable pickle_dump : list statistics_dict → pickled.
Variable pickle_load : pickled → option (list statistics_dict).

(** What the program can observe and change outside the container
    object: the store of dict objects, the file system, and the trace of
    file writes ([(path, contents)], oldest first). *)
Record world := World {
  heap : gmap loc statistics_dict;
  files : gmap string pickled;
  writes : list (string * pickled)
}.

Record StatisticsContainer := Container {
  statistics_path : string;
  backup_statistics_path : string;
  statistics_list : list loc
}.

(** ['{}_{}.pickle'.format(a, b)] *)
Definition format_backup (a b : string) : string :=
  a +:+ "_" +:+ b +:+ ".pickle".

(** [StatisticsContainer.__init__]; [now] is
    [datetime.datetime.now().strftime('%Y-%m-%d_%H-%M-%S')]. *)
Definition init (statistics_path : string) (now : string)
  : StatisticsContainer :=
  {| statistics_path := statistics_path;
     backup_statistics_path :=
       format_backup (fst (Path.splitext statistics_path)) now;
     statistics_list := [] |}.

(** The value of a list of dict references: each address replaced by
    the dict it holds now. *)
Definition deref (h : gmap loc statistics_dict) (refs : list loc)
  : list statistics_dict :=
  omap (λ l, h !! l) refs.

(** [cPickle.dump(obj, open(path, 'wb'))] *)
Definition dump_to (path : string) (obj : list statistics_dict)
    (w : world) : world :=
  {| heap := heap w;
     files := <[path := pickle_dump obj]> (files w);
     writes := writes w ++ [(path, pickle_dump obj)] |}.

(** [cPickle.load(open(path, 'rb'))] *)
Definition load_from (path : string) (w : world)
  : option (list statistics_dict) :=
  files w !! path ≫= pickle_load.

(** [StatisticsContainer.append_and_dump(iteration, statistics)].
    [statistics] is the address of the caller's dict; an address that
    holds no dict cannot take the item assignment. The closing
    [logging.info] changes nothing the model observes. *)
Definition append_and_dump (self : StatisticsContainer) (w : world)
    (iteration : Z) (statistics : loc)
  : result (StatisticsContainer * world) :=
  match heap w !! statistics with
  | None => Err TypeError
  | Some d =>
      (* statistics['iteration'] = iteration *)
      let h := <[statistics := <["iteration" := VInt iteration]> d]> (heap w) in
      let w := {| heap := h; files := files w; writes := writes w |} in
      (* self.statistics_list.append(statistics) *)
      let self :=
        {| statistics_path := statistics_path self;
           backup_statistics_path := backup_statistics_path self;
           statistics_list := statistics_list self ++ [statistics] |} in
      let snapshot := deref (heap w) (statistics_list self) in
      let w := dump_to (statistics_path self) snapshot w in
      let w := dump_to (backup_statistics_path self) snapshot w in
      Ok (self, w)
  end.

(** A run of calls [append_and_dump(i_1, r_1); ...; append_and_dump(i_n, r_n)]. *)
Definition run_calls (self : StatisticsContainer) (w : world)
    (calls : list (Z * loc)) : result (StatisticsContainer * world) :=
  for_each calls
    (λ st c, append_and_dump (fst st) (snd st) (fst c) (snd c))
    (self, w).

End Log.
End Log.

(* ===================================================================== *)
(** ** Model outputs *)
(* ===================================================================== *)

(** A numpy array of floats: its shape and its items. *)
Record ndarray := NdArray {
  shape : list nat;
  item : list nat → Q
}.

(** The values of the mapping returned by [forward]. *)
Inductive out_value :=
| OArray (a : ndarray)           (* clipwise_output, framewise_output, targets, feature *)
| ONames (names : list string).  (* audio_name *)

Abbreviation output := (gmap string out_value).

Definition as_array (v : out_value) : result ndarray :=
  match v with OArray a => Ok a | ONames _ => Err TypeError end.

Definition as_names (v : out_value) : result (list string) :=
  match v with ONames l => Ok l | OArray _ => Err TypeError end.

(** Every index below the extent of its axis. *)
Fixpoint in_bounds (shape idx : list nat) : bool :=
  match shape, idx with
  | [], [] => true
  | d :: shape', i :: idx' => (i <? d)%nat && in_bounds shape' idx'
  | _, _ => false
  end.

(** [a[i_1, ..., i_n]] *)
Definition getitem_nd (a : ndarray) (idx : list nat) : result Q :=
  if in_bounds (shape a) idx then Ok (item a idx) else Err IndexError.

(** [a[n, :, k]] on a three-dimensional array. *)
Definition slice_frames (a : ndarray) (n k : nat) : result (list Q) :=
  match shape a with
  | [audios_num; frames_num; classes_num] =>
      if (n <? audios_num)%nat && (k <? classes_num)%nat
      then Ok (map (λ t, item a [n; t; k]) (seq 0 frames_num))
      else Err IndexError
  | _ => Err IndexError
  end.

(** [(audios_num, frames_num, classes_num) = a.shape] *)
Definition unpack_shape3 (a : ndarray) : result (nat * nat * nat) :=
  match shape a with
  | [audios_num; frames_num; classes_num] =>
      Ok (audios_num, frames_num, classes_num)
  | _ => Err ValueError
  end.

(** [output_dict[key][i_1, ..., i_n]] *)
Definition array_item (output_dict : output) (key : string) (idx : list nat)
  : result Q :=
  a ← getitem output_dict key ≫= as_array;
  getitem_nd a idx.

(** [np.zeros(shape)] *)
Definition zeros (sh : list nat) : ndarray :=
  {| shape := sh; item := λ _, 0%Q |}.

(** [a[bgn : fin, k] = 1] *)
Definition assign_ones (a : ndarray) (bgn fin k : nat) : ndarray :=
  {| shape := shape a;
     item := λ idx,
       match idx with
       | [t; k'] =>
           if (bgn <=? t)%nat && (t <? fin)%nat && (k' =? k)%nat
              && in_bounds (shape a) idx
           then 1%Q else item a idx
       | _ => item a idx
       end |}.

(* ===================================================================== *)
(** ** [Evaluator] *)
(* ===================================================================== *)

(** [Evaluator.sed_params_dict]: a dict literal with five fixed keys. *)
Record sed_params := SedParams {
  audio_tagging_threshold : Q;
  sed_high_threshold : Q;
  sed_low_threshold : Q;
  n_smooth : Z;
  n_salt : Z
}.

(** The value [Evaluator.__init__] gives it; [//] is floor division.
    The literal [0.5] is exactly one half; the literal [0.9] is the
    double nearest to nine tenths, 8106479329266893 / 2^53. *)
Definition sed_params_dict (frames_per_second : Z) : sed_params :=
  {| audio_tagging_threshold := 1 # 2;
     sed_high_threshold := 8106479329266893 # 9007199254740992;
     sed_low_threshold := 1 # 2;
     n_smooth := frames_per_second / 4;
     n_salt := frames_per_second / 4 |}.

(** The names the module binds at top level: its imports (lines 1-17) and
    its two classes. *)
Definition module_globals : list string :=
  [ "os"; "sys"; "np"; "time"; "logging"; "plt"; "metrics"; "datetime";
    "cPickle"; "sed_eval"; "get_filename";
    "read_csv_file_for_sed_eval_tool"; "inverse_scale"; "write_submission";
    "forward"; "config"; "Evaluator"; "StatisticsContainer" ].

(** Reading a name that is not local to the function: it must be bound in
    the global namespace (no builtin is called [activity_detection]). *)
Definition lookup_global (globals : list string) (name : string)
  : result string :=
  if bool_decide (name ∈ globals) then Ok name else Err (NameError name).

(** The keyword arguments of the call at lines 193-198. *)
Record detector_args := DetectorArgs {
  x : list Q;
  thres : Q;
  low_thres : Q;
  arg_n_smooth : Z;
  arg_n_salt : Z
}.

(** The clip-level test of lines 190-191. *)
Definition gate (p : sed_params) (clipwise : Q) : bool :=
  Qgtb clipwise (sed_high_threshold p).

Module Evaluator.
Section Evaluator.

(** [config.labels], [config.frames_per_second]. *)
Variable labels : list string.
Variable frames_per_second : Z.

(** Events as [read_csv_file_for_sed_eval_tool] returns them. *)
Context {event : Type}.

(** Collaborators of [evaluate]. *)
Variable average_precision_score : out_value → out_value → result (list Q).
Variable write_submission : output → sed_params → string → result unit.
Variable read_csv_file_for_sed_eval_tool :
  string → result (gmap string (list event)).

(** The two [sed_eval] accumulators: construction from the label list
    (the tolerances are constants of the call), [evaluate], which
    returns the updated accumulator or raises, and
    [results_class_wise_average_metrics]. *)
Context {event_metric segment_metric : Type}.
Variable EventBasedMetrics : list string → event_metric.
Variable event_evaluate :
  event_metric → list event → list event → result event_metric.
Variable event_results : event_metric → gmap string (gmap string Q).
Variable SegmentBasedMetrics : list string → segment_metric.
Variable segment_evaluate :
  segment_metric → list event → list event → result segment_metric.
Variable segment_results : segment_metric → gmap string (gmap string Q).

(** Collaborators of [visualize]: calling a global that is bound, and the
    plotting block of lines 203-233. *)
Variable call_global : string → detector_args → result (list (nat * nat)).
Variable plot : output → nat → ndarray → result unit.

(** Lines 103-111: the events of one clip, empty when the clip is not a
    key of the mapping. *)
Definition clip_events (d : gmap string (list event)) (audio_name : string)
  : result (list event) :=
  if contains d audio_name then getitem d audio_name else Ok [].

(** The body of the loop of lines 102-114. *)
Definition evaluate_clip (reference_dict predict_dict : gmap string (list event))
    (acc : event_metric * segment_metric) (audio_name : string)
  : result (event_metric * segment_metric) :=
  ref_list ← clip_events reference_dict audio_name;
  pred_list ← clip_events predict_dict audio_name;
  event_based_metric ← event_evaluate (fst acc) ref_list pred_list;
  segment_based_metric ← segment_evaluate (snd acc) ref_list pred_list;
  Ok (event_based_metric, segment_based_metric).

(** Lines 117-124 and 131-138: the four class-wise averages. *)
Definition metrics_record (m : gmap string (gmap string Q))
  : result stat_value :=
  f_measure ← getitem2 m "f_measure" "f_measure";
  error_rate ← getitem2 m "error_rate" "error_rate";
  deletion_rate ← getitem2 m "error_rate" "deletion_rate";
  insertion_rate ← getitem2 m "error_rate" "insertion_rate";
  Ok (VMetrics (<["f_measure" := f_measure]>
               (<["error_rate" := error_rate]>
               (<["deletion_rate" := deletion_rate]>
               (<["insertion_rate" := insertion_rate]> ∅))))).

(** [Evaluator.evaluate]. [fwd] is the outcome of lines 57-66 (the
    generator and the forward pass); the result is [None] when the
    function ends without reaching its [return]. [np.mean] and the
    [logging] calls only report and are left out. *)
Definition evaluate (metadata_path submission_path : string)
    (fwd : result output) : result (option statistics_dict) :=
  output_dict ← fwd;
  (* lines 69-77: the local [average_precision] is bound only here *)
  average_precision ←
    (if contains output_dict "weak_target" then
       weak_target ← getitem output_dict "weak_target";
       clipwise_output ← getitem output_dict "clipwise_output";
       ap ← average_precision_score weak_target clipwise_output;
       Ok (Some ap)
     else Ok None);
  (* lines 79-80 *)
  let statistics : statistics_dict := ∅ in
  ap ← match average_precision with
       | Some ap => Ok ap
       | None => Err (UnboundLocalError "average_precision")
       end;
  let statistics := <["average_precision" := VArray ap]> statistics in
  (* line 82 *)
  if contains output_dict "strong_target" then
    _ ← write_submission output_dict (sed_params_dict frames_per_second)
          submission_path;
    reference_dict ← read_csv_file_for_sed_eval_tool metadata_path;
    predict_dict ← read_csv_file_for_sed_eval_tool submission_path;
    let event_based_metric := EventBasedMetrics labels in
    let segment_based_metric := SegmentBasedMetrics labels in
    names ← getitem output_dict "audio_name" ≫= as_names;
    acc ← for_each names (evaluate_clip reference_dict predict_dict)
            (event_based_metric, segment_based_metric);
    event_metrics ← metrics_record (event_results (fst acc));
    let statistics := <["event_metrics" := event_metrics]> statistics in
    segment_metrics ← metrics_record (segment_results (snd acc));
    let statistics := <["segment_metrics" := segment_metrics]> statistics in
    (* line 148, inside the branch *)
    Ok (Some statistics)
  else
    Ok None.

(** Lines 183-185: the per-class print of one clip. *)
Definition print_class (output_dict : output) (n : nat) (_ : unit) (k : nat)
  : result unit :=
  _ ← getindex labels k;
  _ ← array_item output_dict "weak_target" [n; k];
  _ ← array_item output_dict "clipwise_output" [n; k];
  Ok ().

(** Lines 193-198: the call of [activity_detection]. The name is
    resolved first, then the keyword arguments are evaluated. *)
Definition detect_class (globals : list string) (p : sed_params)
    (output_dict : output) (n k : nat) : result (list (nat * nat)) :=
  f ← lookup_global globals "activity_detection";
  framewise ← getitem output_dict "framewise_output" ≫= as_array;
  scores ← slice_frames framewise n k;
  call_global f {| x := scores;
                   thres := sed_high_threshold p;
                   low_thres := sed_low_threshold p;
                   arg_n_smooth := n_smooth p;
                   arg_n_salt := n_salt p |}.

(** Lines 200-201. *)
Definition mark_pairs (event_prediction : ndarray) (k : nat)
    (bgn_fin_pairs : list (nat * nat)) : ndarray :=
  fold_left (λ ep pair, assign_ones ep (fst pair) (snd pair) k)
            bgn_fin_pairs event_prediction.

(** Lines 189-201: the body of the loop over classes. *)
Definition class_step (globals : list string) (p : sed_params)
    (output_dict : output) (n : nat) (event_prediction : ndarray) (k : nat)
  : result ndarray :=
  clipwise ← array_item output_dict "clipwise_output" [n; k];
  if gate p clipwise then
    bgn_fin_pairs ← detect_class globals p output_dict n k;
    Ok (mark_pairs event_prediction k bgn_fin_pairs)
  else
    Ok event_prediction.

(** Lines 181-185: the prints that open the body of the loop over clips. *)
Definition print_clip (output_dict : output) (classes_num : nat) (n : nat)
  : result unit :=
  names ← getitem output_dict "audio_name" ≫= as_names;
  _ ← getindex names n;
  for_each (seq 0 classes_num) (print_class output_dict n) ().

(** Lines 181-233: the body of the loop over clips. *)
Definition visualize_clip (globals : list string) (p : sed_params)
    (output_dict : output) (frames_num classes_num : nat)
    (_ : unit) (n : nat) : result unit :=
  _ ← print_clip output_dict classes_num n;
  event_prediction ←
    for_each (seq 0 classes_num) (class_step globals p output_dict n)
      (zeros [frames_num; classes_num]);
  plot output_dict n event_prediction.

(** [Evaluator.visualize] run in a given global namespace. *)
Definition visualize_in (globals : list string) (fwd : result output)
  : result unit :=
  output_dict ← fwd;
  framewise ← getitem output_dict "framewise_output" ≫= as_array;
  dims ← unpack_shape3 framewise;
  let '(audios_num, frames_num, classes_num) := dims in
  for_each (seq 0 audios_num)
    (visualize_clip globals (sed_params_dict frames_per_second) output_dict
       frames_num classes_num) ().

(** [Evaluator.visualize] as the module has it. *)
Definition visualize (fwd : result output) : result unit :=
  visualize_in module_globals fwd.

End Evaluator.
End Evaluator.

(* ===================================================================== *)
(** ** [ActivityDetector] *)
(* ===================================================================== *)

(** [activity_detection] lives in a utilities module that [evaluate.py]
    does not even import; the detector below follows section 4.1 of the
    specification step by step. Frame counts and window lengths are
    natural numbers, so the preconditions [smooth_window >= 0] and
    [salt_window >= 0] hold by typing. *)

Module Detector.

Abbreviation interval := (nat * nat)%type.

(** Modelled from the spec: the body of the activity detector, which is
    not part of this file. Step 1 (hysteresis): scan the frames from
    frame [t]; [open] is the start of the region of the low-threshold
    mask the scan is in, with a flag telling whether the region has
    already reached [high_threshold]. A region is kept when it ends
    only if the flag is set. *)
Fixpoint hysteresis (high_threshold low_threshold : Q) (scores : list Q)
    (t : nat) (open : option (nat * bool)) : list interval :=
  match scores with
  | [] =>
      match open with
      | Some (start, true) => [(start, t)]
      | _ => []
      end
  | s :: rest =>
      if Qle_bool low_threshold s then
        let crossed := Qle_bool high_threshold s in
        match open with
        | Some (start, seen) =>
            hysteresis high_threshold low_threshold rest (S t)
              (Some (start, seen || crossed))
        | None =>
            hysteresis high_threshold low_threshold rest (S t)
              (Some (t, crossed))
        end
      else
        match open with
        | Some (start, true) =>
            (start, t) :: hysteresis high_threshold low_threshold rest (S t) None
        | _ => hysteresis high_threshold low_threshold rest (S t) None
        end
  end.

(** Modelled from the spec: step 2 of the activity detector (gap
    smoothing), which is not part of this file. [cur] is the segment
    being grown; the next segment is merged into it when the silent gap
    between them is strictly shorter than [smooth_window]. *)
Fixpoint smooth_from (smooth_window : nat) (cur : interval)
    (rest : list interval) : list interval :=
  match rest with
  | [] => [cur]
  | next :: rest' =>
      if (fst next - snd cur <? smooth_window)%nat
      then smooth_from smooth_window (fst cur, snd next) rest'
      else cur :: smooth_from smooth_window next rest'
  end.

(** Modelled from the spec: gap smoothing of a whole segment list (the
    activity detector is not part of this file). *)
Definition gap_smoothing (smooth_window : nat) (segments : list interval)
  : list interval :=
  match segments with
  | [] => []
  | first :: rest => smooth_from smooth_window first rest
  end.

(** Modelled from the spec: step 3 of the activity detector (salt
    removal), which is not part of this file: segments shorter than
    [salt_window] frames are discarded. *)
Definition salt_removal (salt_window : nat) (segments : list interval)
  : list interval :=
  List.filter (λ seg, negb (snd seg - fst seg <? salt_window)%nat) segments.

(** Modelled from the spec: step 4 of the activity detector, which is
    not part of this file: the bounds clipped to the [F] frames of the
    input (the segments are already in start order). *)
Definition clip_to (F : nat) (segments : list interval) : list interval :=
  map (λ seg, (Nat.min (fst seg) F, Nat.min (snd seg) F)) segments.

(** Modelled from the spec: the [detect] contract of section 4.1, whose
    implementation is not part of this file. *)
Definition detect (scores : list Q) (high_threshold low_threshold : Q)
    (smooth_window salt_window : nat) : list interval :=
  clip_to (length scores)
    (salt_removal salt_window
       (gap_smoothing smooth_window
          (hysteresis high_threshold low_threshold scores 0 None))).

(** Modelled from the spec: the preconditions of [detect] (section 4.1)
    that typing does not enforce; the detector is not part of this file. *)
Definition preconditions (scores : list Q) (high_threshold low_threshold : Q)
  : Prop :=
  (0 <= low_threshold)%Q ∧ (low_threshold <= high_threshold)%Q
  ∧ (high_threshold <= 1)%Q ∧ (1 <= length scores)%nat.

End Detector.

(* ===================================================================== *)
(** ** Concrete collaborators and inputs used by the examples *)
(* ===================================================================== *)


(** The simplest serialisation that [load] inverts: the value itself. *)
Definition id_dump (v : list statistics_dict) : list statistics_dict := v.
Definition id_load (b : list statistics_dict) : option (list statistics_dict) :=
  Some b.


(** The record of the round-trip scenario: [{"average_precision": [0.8, 0.6]}]. *)
Definition ap_record : statistics_dict :=
  {[ "average_precision" := VArray [8 # 10; 6 # 10]%Q ]}.

(** The extension the specification gives the backup file: the primary
    path's own. *)
Definition spec_backup_path (statistics_path now : string) : string :=
  fst (Path.splitext statistics_path) +:+ "_" +:+ now
  +:+ snd (Path.splitext statistics_path).

(** A constant array of a given shape. *)
Definition const_array (sh : list nat) (v : Q) : ndarray :=
  {| shape := sh; item := λ _, v |}.

(** One clip, one frame, one class, scored [v] clip-wise and frame-wise. *)
Definition one_clip_output (v : Q) : output :=
  <["framewise_output" := OArray (const_array [1; 1; 1]%nat v)]>
  (<["clipwise_output" := OArray (const_array [1; 1]%nat v)]>
  (<["audio_name" := ONames ["clip_a"]]> ∅)).

(** The same with clip-level targets. *)
Definition weak_output (v : Q) : output :=
  <["weak_target" := OArray (const_array [1; 1]%nat 1)]> (one_clip_output v).

(** Collaborators that always succeed. *)
Definition aps_ok (_ _ : out_value) : result (list Q) := Ok [1%Q].
Definition write_ok (_ : output) (_ : sed_params) (_ : string) : result unit :=
  Ok ().
Definition read_empty (_ : string) : result (gmap string (list nat)) := Ok ∅.
Definition unit_metric (_ : list string) : unit := ().
Definition unit_evaluate (_ : unit) (_ _ : list nat) : result unit := Ok ().
Definition no_results (_ : unit) : gmap string (gmap string Q) := ∅.
(** Class-wise averages as [results_class_wise_average_metrics] lays
    them out, here for a perfect score. *)
Definition perfect_results (_ : unit) : gmap string (gmap string Q) :=
  <["f_measure" := {[ "f_measure" := 1%Q ]}]>
  (<["error_rate" := <["error_rate" := 0%Q]>
                     (<["deletion_rate" := 0%Q]>
                     {[ "insertion_rate" := 0%Q ]})]> ∅).

(** The mapping of a split with frame-level targets. *)
Definition strong_output (v : Q) : output :=
  <["strong_target" := OArray (const_array [1; 1; 1]%nat 1)]> (weak_output v).

Definition call_none (_ : string) (_ : detector_args)
  : result (list (nat * nat)) := Ok [].
Definition plot_ok (_ : output) (_ : nat) (_ : ndarray) : result unit := Ok ().

(* ===================================================================== *)
(** ** Reference functions used to state properties *)
(* ===================================================================== *)

(** The iteration of the last call of a run that passed the object [l],
    if any call did. *)
Fixpoint last_iteration (calls : list (Z * loc)) (l : loc) : option Z :=
  match calls with
  | [] => None
  | c :: rest =>
      match last_iteration rest l with
      | Some it => Some it
      | None => if decide (c.2 = l) then Some c.1 else None
      end
  end.

(** A dict with its ['iteration'] set to [it], or left alone. *)
Definition with_iteration (it : option Z) (d : statistics_dict)
  : statistics_dict :=
  match it with
  | Some i => <["iteration" := VInt i]> d
  | None => d
  end.

(** What the loop over the clip list amounts to when a clip that is not
    a key counts as a clip with no events: each accumulator is fed, clip
    after clip, the reference list and the prediction list of the clip,
    either of them empty when the clip is missing on that side. *)
Definition feed_clips {event event_metric segment_metric : Type}
    (event_evaluate :
       event_metric → list event → list event → result event_metric)
    (segment_evaluate :
       segment_metric → list event → list event → result segment_metric)
    (reference_dict predict_dict : gmap string (list event))
    (audio_names : list string) (acc : event_metric * segment_metric)
  : result (event_metric * segment_metric) :=
  for_each audio_names
    (λ acc name,
       let ref_list := default [] (reference_dict !! name) in
       let pred_list := default [] (predict_dict !! name) in
       event_based_metric ← event_evaluate acc.1 ref_list pred_list;
       segment_based_metric ← segment_evaluate acc.2 ref_list pred_list;
       Ok (event_based_metric, segment_based_metric))
    acc.

(** An accumulator that remembers the pairs of lists it was fed. *)
Definition recording_metric (_ : list string) : list (list nat * list nat) := [].
Definition recording_evaluate (acc : list (list nat * list nat))
    (ref_list pred_list : list nat) : result (list (list nat * list nat)) :=
  Ok (acc ++ [(ref_list, pred_list)]).

(** Its class-wise averages stand in for counts: the number of clips
    fed, of clips with no reference event, of clips with no predicted
    event. *)
Definition count_pairs (f : list nat * list nat → bool)
    (acc : list (list nat * list nat)) : Q :=
  inject_Z (Z.of_nat (length (List.filter f acc))).
Definition recording_results (acc : list (list nat * list nat))
  : gmap string (gmap string Q) :=
  <["f_measure" := {[ "f_measure" := count_pairs (λ _, true) acc ]}]>
  (<["error_rate" :=
       <["error_rate" := count_pairs (λ pr, bool_decide (pr.1 = [])) acc]>
       (<["deletion_rate" := count_pairs (λ pr, bool_decide (pr.2 = [])) acc]>
       {[ "insertion_rate" := 0%Q ]})]> ∅).

(** A reference that knows only [clip_a] and a submission that knows
    only [clip_b]. *)
Definition read_two_files (path : string) : result (gmap string (list nat)) :=
  if String.eqb path "metadata.csv"
  then Ok {[ "clip_a" := [7%nat] ]}
  else Ok {[ "clip_b" := [8%nat; 9%nat] ]}.

(** The mapping of two clips with both kinds of target. *)
Definition two_clip_output : output :=
  <["strong_target" := OArray (const_array [2; 1; 1]%nat 1)]>
  (<["weak_target" := OArray (const_array [2; 1]%nat 1)]>
  (<["framewise_output" := OArray (const_array [2; 1; 1]%nat (8 # 10))]>
  (<["clipwise_output" := OArray (const_array [2; 1]%nat (8 # 10))]>
  (<["audio_name" := ONames ["clip_a"; "clip_b"]]> ∅)))).

(** A detector that reports the whole clip as one event. *)
Definition call_whole_clip (_ : string) (args : detector_args)
  : result (list (nat * nat)) := Ok [(0%nat, length (x args))].

(** A mapping whose clipwise output has a class more than its framewise
    output: one clip, one frame; class 0 scored [v0], the extra class 1
    scored [v1]. *)
Definition extra_class_output (v0 v1 : Q) : output :=
  <["weak_target" := OArray (const_array [1; 2]%nat 1)]>
  (<["framewise_output" := OArray (const_array [1; 1; 1]%nat v0)]>
  (<["clipwise_output" :=
       OArray {| shape := [1; 2]%nat;
                 item := λ idx, match idx with
                                | [_; 1%nat] => v1
                                | _ => v0
                                end |}]>
  (<["audio_name" := ONames ["clip_a"]]> ∅))).

(** A store of three records and no files. *)
Definition three_records : @Log.world (list statistics_dict) :=
  {| Log.heap := {[ 1%positive := ap_record; 2%positive := ap_record;
                    3%positive := ap_record ]};
     Log.files := ∅; Log.writes := [] |}.

(* ===================================================================== *)
(** * Properties *)
(* ===================================================================== *)

(** ** The embedding on concrete inputs *)

Example splitext_plain :
  Path.splitext "workspace/statistics.pickle" = ("workspace/statistics", ".pickle").
Proof. reflexivity. Qed.

Example splitext_dot_in_directory :
  Path.splitext "run.1/statistics" = ("run.1/statistics", "").
Proof. reflexivity. Qed.

Example splitext_leading_dot : Path.splitext ".hidden" = (".hidden", "").
Proof. reflexivity. Qed.

(** The two detector scenarios of the specification. *)
Example detect_merges_short_gap :
  Detector.detect
    [1 # 10; 95 # 100; 95 # 100; 95 # 100; 2 # 10; 95 # 100; 95 # 100; 1 # 10]%Q
    (9 # 10) (3 # 10) 2 1 = [(1, 7)]%nat.
Proof. reflexivity. Qed.

Example detect_drops_single_frame_spike :
  Detector.detect [1 # 10; 95 # 100; 1 # 10]%Q (9 # 10) (3 # 10) 0 2 = [].
Proof. reflexivity. Qed.

(** A region of the low-threshold mask that never reaches the high
    threshold is dropped. *)
Example detect_needs_high_crossing :
  Detector.detect [5 # 10; 5 # 10; 95 # 100; 5 # 10; 0; 5 # 10]%Q
    (9 # 10) (3 # 10) 0 0 = [(0, 4)]%nat.
Proof. reflexivity. Qed.

(** With frame-level targets [evaluate] reaches its [return]. *)
Example evaluate_strong_returns_record :
  ∃ statistics,
    Evaluator.evaluate ["Speech"] 50 aps_ok write_ok read_empty
      unit_metric unit_evaluate perfect_results
      unit_metric unit_evaluate perfect_results
      "metadata.csv" "submission.csv" (Ok (strong_output (8 # 10)))
    = Ok (Some statistics)
    ∧ statistics !! "average_precision" = Some (VArray [1%Q])
    ∧ is_Some (statistics !! "event_metrics")
    ∧ is_Some (statistics !! "segment_metrics").
Proof. eexists. split; [reflexivity|]. repeat split; eexists; reflexivity. Qed.

(** ** The error monad and the loops *)

Lemma for_each_app {A S} (xs ys : list A) (body : S → A → result S) (s : S) :
  for_each (xs ++ ys) body s = for_each xs body s ≫= for_each ys body.
Proof.
  revert s. induction xs as [|x xs IH]; intros s; simpl; [reflexivity|].
  unfold mbind, result_bind. destruct (body s x) as [s'|e]; [apply IH|reflexivity].
Qed.

Lemma for_each_snoc {A S} (xs : list A) (y : A) (body : S → A → result S) (s : S) :
  for_each (xs ++ [y]) body s = for_each xs body s ≫= λ s', body s' y.
Proof.
  rewrite for_each_app. unfold mbind, result_bind.
  destruct (for_each xs body s) as [s'|e]; [|reflexivity].
  simpl. unfold mbind, result_bind. destruct (body s' y); reflexivity.
Qed.

Ltac bind_ok :=
  repeat (progress (try change (Ok ?a ≫= ?f) with (f a); cbv beta iota)).

Ltac split_binds H :=
  repeat match type of H with
         | context [mbind _ ?m] =>
             lazymatch m with
             | Ok _ => fail
             | _ => destruct m; [|discriminate H]
             end; simpl in H
         end.

Lemma contains_true {V} (d : gmap string V) key :
  contains d key = true ↔ is_Some (d !! key).
Proof. unfold contains. apply bool_decide_eq_true. Qed.

Lemma contains_false {V} (d : gmap string V) key :
  contains d key = false ↔ d !! key = None.
Proof.
  unfold contains. rewrite bool_decide_eq_false. rewrite eq_None_not_Some. tauto.
Qed.

(** ** The statistics log *)

Section LogFacts.

Context {pickled : Type}.
Variable pickle_dump : list statistics_dict → pickled.
Variable pickle_load : pickled → option (list statistics_dict).

(** One call on a dict object, written out. *)
Lemma append_and_dump_step self (w : @Log.world pickled) it l d :
  Log.heap w !! l = Some d →
  Log.append_and_dump pickle_dump self w it l =
    let h := <[l := <["iteration" := VInt it]> d]> (Log.heap w) in
    let refs := Log.statistics_list self ++ [l] in
    let bytes := pickle_dump (Log.deref h refs) in
    Ok ({| Log.statistics_path := Log.statistics_path self;
           Log.backup_statistics_path := Log.backup_statistics_path self;
           Log.statistics_list := refs |},
        {| Log.heap := h;
           Log.files :=
             <[Log.backup_statistics_path self := bytes]>
               (<[Log.statistics_path self := bytes]> (Log.files w));
           Log.writes :=
             (Log.writes w ++ [(Log.statistics_path self, bytes)])
             ++ [(Log.backup_statistics_path self, bytes)] |}).
Proof. intros Hl. unfold Log.append_and_dump. rewrite Hl. reflexivity. Qed.

(** A call either fails on a dangling address or is the step above. *)
Lemma append_and_dump_inv self (w : @Log.world pickled) it l self' w' :
  Log.append_and_dump pickle_dump self w it l = Ok (self', w') →
  ∃ d, Log.heap w !! l = Some d.
Proof.
  unfold Log.append_and_dump. destruct (Log.heap w !! l) as [d|]; [eauto|discriminate].
Qed.

(** When every address holds a dict, [deref] is a plain map. *)
Lemma deref_lookup (h : gmap loc statistics_dict) (refs : list loc) j :
  (∀ l, l ∈ refs → is_Some (h !! l)) →
  Log.deref h refs !! j = refs !! j ≫= λ l, h !! l.
Proof.
  unfold Log.deref. revert j. induction refs as [|r refs IH]; intros j Hall.
  - reflexivity.
  - destruct (Hall r) as [d Hd]; [left|].
    simpl. rewrite Hd. destruct j as [|j]; simpl.
    + rewrite Hd. reflexivity.
    + apply IH. intros l Hin. apply Hall. right. exact Hin.
Qed.

Lemma deref_length (h : gmap loc statistics_dict) (refs : list loc) :
  (∀ l, l ∈ refs → is_Some (h !! l)) →
  length (Log.deref h refs) = length refs.
Proof.
  unfold Log.deref. induction refs as [|r refs IH]; intros Hall; [reflexivity|].
  destruct (Hall r) as [d Hd]; [left|].
  simpl. rewrite Hd. simpl. f_equal. apply IH.
  intros l Hin. apply Hall. right. exact Hin.
Qed.

(** The two paths never change, and each call writes the primary file
    and then the backup file. *)
Lemma run_calls_paths calls : ∀ self (w : @Log.world pickled) self' w',
  Log.run_calls pickle_dump self w calls = Ok (self', w') →
  Log.statistics_path self' = Log.statistics_path self
  ∧ Log.backup_statistics_path self' = Log.backup_statistics_path self
  ∧ (Log.writes w').*1 =
      (Log.writes w).*1
      ++ mjoin (replicate (length calls)
                  [Log.statistics_path self; Log.backup_statistics_path self]).
Proof.
  unfold Log.run_calls.
  induction calls as [|[it l] calls IH]; intros self w self' w' Hrun.
  - simpl in Hrun. injection Hrun as <- <-. simpl. rewrite app_nil_r. auto.
  - simpl in Hrun. unfold mbind, result_bind in Hrun.
    destruct (Log.append_and_dump pickle_dump self w it l) as [[self1 w1]|e] eqn:Hstep;
      [|discriminate].
    destruct (append_and_dump_inv _ _ _ _ _ _ Hstep) as [d Hd].
    rewrite (append_and_dump_step _ _ _ _ _ Hd) in Hstep. simpl in Hstep.
    injection Hstep as <- <-.
    destruct (IH _ _ _ _ Hrun) as (Hp & Hb & Hw). simpl in Hp, Hb, Hw.
    repeat split; [exact Hp|exact Hb|].
    rewrite Hw. rewrite !fmap_app. simpl. rewrite <- !app_assoc. reflexivity.
Qed.

(** The state after a run of calls on pairwise distinct dict objects. *)
Lemma run_calls_fresh path now (w : @Log.world pickled) calls :
  NoDup calls.*2 →
  (∀ l, l ∈ calls.*2 → is_Some (Log.heap w !! l)) →
  ∃ self' w',
    Log.run_calls pickle_dump (Log.init path now) w calls = Ok (self', w')
    ∧ Log.statistics_list self' = calls.*2
    ∧ Log.statistics_path self' = path
    ∧ Log.backup_statistics_path self'
      = Log.backup_statistics_path (Log.init path now)
    ∧ (∀ l, is_Some (Log.heap w' !! l) ↔ is_Some (Log.heap w !! l))
    ∧ (∀ j it l, calls !! j = Some (it, l) →
         ∃ d, Log.heap w' !! l = Some d ∧ d !! "iteration" = Some (VInt it))
    ∧ (calls ≠ [] →
         let bytes :=
           pickle_dump (Log.deref (Log.heap w') (Log.statistics_list self')) in
         Log.files w' !! path = Some bytes
         ∧ Log.files w' !! Log.backup_statistics_path self' = Some bytes).
Proof.
  induction calls as [|[it l] calls IH] using rev_ind; intros Hnd Hall.
  - exists (Log.init path now), w. simpl. repeat split; try tauto.
    intros j it l Hj. rewrite lookup_nil in Hj. discriminate.
  - rewrite fmap_app in Hnd, Hall. simpl in Hnd, Hall.
    apply NoDup_app in Hnd as (Hnd & Hfresh & _).
    destruct IH as (self1 & w1 & Hrun & Hlist & Hpath & Hbak & Hdom & Hiter & _).
    { exact Hnd. }
    { intros l' Hin. apply Hall. apply elem_of_app. left. exact Hin. }
    assert (Hl : is_Some (Log.heap w1 !! l)).
    { apply Hdom, Hall. apply elem_of_app. right. left. }
    destruct Hl as [d Hd].
    unfold Log.run_calls in *. rewrite for_each_snoc, Hrun. simpl.
    unfold mbind, result_bind. simpl.
    rewrite (append_and_dump_step _ _ _ _ _ Hd). simpl.
    eexists _, _. split; [reflexivity|]. simpl.
    split; [rewrite Hlist, fmap_app; reflexivity|].
    split; [exact Hpath|]. split; [exact Hbak|].
    split.
    { intros l'. destruct (decide (l = l')) as [<-|Hne].
      - rewrite lookup_insert_eq. rewrite <- Hdom, Hd. split; eauto.
      - rewrite lookup_insert_ne by exact Hne. apply Hdom. }
    split.
    { intros j it' l' Hj.
      destruct (decide (j < length calls)) as [Hlt|Hge].
      - rewrite lookup_app_l in Hj by exact Hlt.
        destruct (Hiter _ _ _ Hj) as (d' & Hd' & Hit).
        assert (l ≠ l').
        { intros <-. apply (Hfresh l); [|left].
          apply list_elem_of_fmap. exists (it', l). split; [reflexivity|].
          apply list_elem_of_lookup. eauto. }
        exists d'. rewrite lookup_insert_ne by assumption. auto.
      - rewrite lookup_app_r in Hj by lia.
        destruct (j - length calls) as [|j'] eqn:Hj'; simpl in Hj; [|discriminate].
        injection Hj as <- <-.
        eexists. rewrite lookup_insert_eq. split; [reflexivity|].
        apply lookup_insert_eq. }
    intros _. simpl. rewrite Hpath.
    split; [|apply lookup_insert_eq].
    destruct (decide (Log.backup_statistics_path self1 = path)) as [->|Hne].
    + apply lookup_insert_eq.
    + rewrite lookup_insert_ne by exact Hne. apply lookup_insert_eq.
Qed.

End LogFacts.

(** ** Claims about the statistics log *)

(** C8: [append_and_dump(iteration, record)] works on the caller's own
    dict object. The object at the address passed in gets the key
    ['iteration'] set to the given iteration, whatever it held under that
    key before; every other key of it keeps its value; the address
    itself, not the address of a copy, is appended to the in-memory
    sequence; no object is created and no other object changes. *)
Theorem append_and_dump_mutates_caller_record
    {pickled} (pickle_dump : list statistics_dict → pickled)
    self (w : Log.world) (iteration : Z) (record : loc) (d : statistics_dict) :
  Log.heap w !! record = Some d →
  ∃ self' w',
    Log.append_and_dump pickle_dump self w iteration record = Ok (self', w')
    ∧ (∃ d', Log.heap w' !! record = Some d'
             ∧ d' !! "iteration" = Some (VInt iteration)
             ∧ ∀ key, key ≠ "iteration" → d' !! key = d !! key)
    ∧ Log.statistics_list self' = Log.statistics_list self ++ [record]
    ∧ (∀ l, is_Some (Log.heap w' !! l) ↔ is_Some (Log.heap w !! l))
    ∧ (∀ l, l ≠ record → Log.heap w' !! l = Log.heap w !! l).
Proof.
  intros Hd. rewrite (append_and_dump_step _ _ _ _ _ _ Hd). simpl.
  eexists _, _. split; [reflexivity|]. simpl.
  split; [|split; [reflexivity|split]].
  - eexists. rewrite lookup_insert_eq. split; [reflexivity|].
    split; [apply lookup_insert_eq|].
    intros key Hkey. apply lookup_insert_ne. congruence.
  - intros l. destruct (decide (record = l)) as [<-|Hne].
    + rewrite lookup_insert_eq, Hd. split; eauto.
    + rewrite lookup_insert_ne by exact Hne. reflexivity.
  - intros l Hne. apply lookup_insert_ne. congruence.
Qed.

(** C8 at a concrete call: a record that already has an ['iteration'] of 1
    is appended with iteration 7. *)
Lemma append_and_dump_mutates_caller_record_witness :
  let w := {| Log.heap := {[ 3%positive := <["iteration" := VInt 1]> ap_record ]};
              Log.files := ∅; Log.writes := [] |} in
  Log.heap w !! 3%positive = Some (<["iteration" := VInt 1]> ap_record)
  ∧ ∃ self' w',
      Log.append_and_dump id_dump (Log.init "statistics.pickle" "t") w 7 3%positive
        = Ok (self', w')
      ∧ (∃ d', Log.heap w' !! 3%positive = Some d'
               ∧ d' !! "iteration" = Some (VInt 7)
               ∧ ∀ key, key ≠ "iteration"
                   → d' !! key = (<["iteration" := VInt 1]> ap_record) !! key)
      ∧ Log.statistics_list self'
        = Log.statistics_list (Log.init "statistics.pickle" "t") ++ [3%positive]
      ∧ (∀ l, is_Some (Log.heap w' !! l) ↔ is_Some (Log.heap w !! l))
      ∧ (∀ l, l ≠ 3%positive → Log.heap w' !! l = Log.heap w !! l).
Proof.
  intros w. split; [reflexivity|].
  apply (append_and_dump_mutates_caller_record id_dump). reflexivity.
Defined.



(** C5 as stated fails: the extension of the backup file is not taken
    from the primary path. For the primary path [statistics.pkl] the
    backup is [statistics_<timestamp>.pickle], not
    [statistics_<timestamp>.pkl]. *)
Lemma backup_extension_counterexample :
  Path.splitext "statistics.pkl" = ("statistics", ".pkl")
  ∧ Log.backup_statistics_path (Log.init "statistics.pkl" "2019-06-01_12-00-00")
    = "statistics_2019-06-01_12-00-00.pickle"
  ∧ spec_backup_path "statistics.pkl" "2019-06-01_12-00-00"
    = "statistics_2019-06-01_12-00-00.pkl"
  ∧ Log.backup_statistics_path (Log.init "statistics.pkl" "2019-06-01_12-00-00")
    ≠ spec_backup_path "statistics.pkl" "2019-06-01_12-00-00".
Proof. repeat split. vm_compute. discriminate. Qed.

(** C5, amended: the backup path is computed once, when the log is
    created, as the primary path's stem, an underscore, the creation
    timestamp and the fixed extension [.pickle]; it is the form
    [<stem>_<timestamp><ext>] of the specification exactly when the
    primary path's own extension is [.pickle]. No call of
    [append_and_dump] changes it: after any run of calls the field is the
    one set at creation, and the files written are, call after call, the
    primary path and that one backup path. *)
Theorem backup_path_fixed_at_creation
    {pickled} (pickle_dump : list statistics_dict → pickled)
    (statistics_path now : string) (w : Log.world) (calls : list (Z * loc))
    self' w' :
  Log.run_calls pickle_dump (Log.init statistics_path now) w calls
    = Ok (self', w') →
  let backup := Log.backup_statistics_path (Log.init statistics_path now) in
  backup = (Path.splitext statistics_path).1 +:+ "_" +:+ now +:+ ".pickle"
  ∧ ((Path.splitext statistics_path).2 = ".pickle"
     → backup = spec_backup_path statistics_path now)
  ∧ Log.backup_statistics_path self' = backup
  ∧ (Log.writes w').*1
    = (Log.writes w).*1
      ++ mjoin (replicate (length calls) [statistics_path; backup]).
Proof.
  intros Hrun backup.
  split; [reflexivity|]. split.
  { intros Hext. unfold backup, spec_backup_path. simpl.
    unfold Log.format_backup. rewrite Hext. reflexivity. }
  destruct (run_calls_paths _ _ _ _ _ _ Hrun) as (_ & Hb & Hw).
  split; [exact Hb|exact Hw].
Qed.

(** C5 on a run of two calls with a primary path that ends in [.pkl]. *)
Lemma backup_path_fixed_at_creation_witness :
  let w := {| Log.heap := {[ 1%positive := ap_record; 2%positive := ap_record ]};
              Log.files := ∅; Log.writes := [] |} in
  ∃ self' w',
    Log.run_calls id_dump (Log.init "statistics.pkl" "2019-06-01_12-00-00") w
      [(10%Z, 1%positive); (20%Z, 2%positive)] = Ok (self', w')
    ∧ Log.backup_statistics_path self' = "statistics_2019-06-01_12-00-00.pickle"
    ∧ (Log.writes w').*1
      = [ "statistics.pkl"; "statistics_2019-06-01_12-00-00.pickle";
          "statistics.pkl"; "statistics_2019-06-01_12-00-00.pickle" ].
Proof.
  intros w.
  assert (Hrun : ∃ st,
            Log.run_calls id_dump
              (Log.init "statistics.pkl" "2019-06-01_12-00-00") w
              [(10%Z, 1%positive); (20%Z, 2%positive)] = Ok st)
    by (eexists; reflexivity).
  destruct Hrun as [[self' w'] Hrun].
  exists self', w'. split; [exact Hrun|].
  destruct (backup_path_fixed_at_creation id_dump _ _ _ _ _ _ Hrun)
    as (_ & _ & Hb & Hw).
  split; [exact Hb|exact Hw].
Defined.


(** ** The evaluator *)

Lemma Qgtb_true (x y : Q) : Qgtb x y = true ↔ (y < x)%Q.
Proof.
  unfold Qgtb. rewrite negb_true_iff. split.
  - intros H. apply Qnot_le_lt. intros Hle.
    apply Qle_bool_iff in Hle. congruence.
  - intros H. destruct (Qle_bool x y) eqn:E; [|reflexivity].
    apply Qle_bool_iff in E. exfalso. exact (Qlt_not_le _ _ H E).
Qed.

Lemma Qgtb_false (x y : Q) : Qgtb x y = false ↔ (x <= y)%Q.
Proof.
  unfold Qgtb. rewrite negb_false_iff. apply Qle_bool_iff.
Qed.

(** The module binds no global called [activity_detection]. *)
Lemma activity_detection_unbound :
  lookup_global module_globals "activity_detection"
  = Err (NameError "activity_detection").
Proof. reflexivity. Qed.

(** A loop that reaches an iteration which raises, after iterations that
    either go through or raise an exception of the same kind, raises an
    exception of that kind. *)
Lemma for_each_fails {A S} (P : exn → Prop) (body : S → A → result S)
    (pre : list A) (x : A) (post : list A) :
  (∀ s, ∃ e, body s x = Err e ∧ P e) →
  (∀ s y, y ∈ pre → (∃ s', body s y = Ok s') ∨ (∃ e, body s y = Err e ∧ P e)) →
  ∀ s, ∃ e, for_each (pre ++ x :: post) body s = Err e ∧ P e.
Proof.
  intros Hx. induction pre as [|y pre IH]; intros Hpre s; simpl.
  - destruct (Hx s) as (e & -> & He). eauto.
  - destruct (Hpre s y) as [(s' & ->)|(e & -> & He)]; [left| |eauto].
    simpl. apply IH. intros s0 y0 Hin. apply Hpre. right. exact Hin.
Qed.

(** Every iteration of a loop that ran to its end went through. *)
Lemma for_each_unit_ok {A} (body : unit → A → result unit) (xs : list A) x :
  for_each xs body () = Ok () → x ∈ xs → body () x = Ok ().
Proof.
  induction xs as [|y xs IH]; intros Hrun Hin.
  - apply elem_of_nil in Hin. destruct Hin.
  - simpl in Hrun. destruct (body () y) as [[]|e] eqn:Hy; [|discriminate].
    simpl in Hrun. apply elem_of_cons in Hin as [->|Hin]; [exact Hy|auto].
Qed.

Lemma seq_split_at (n len : nat) :
  (n < len)%nat → seq 0 len = seq 0 n ++ n :: seq (S n) (len - S n).
Proof.
  intros Hlt. replace len with (n + S (len - S n))%nat at 1 by lia.
  rewrite seq_app. reflexivity.
Qed.

Section EvaluatorFacts.

Variable labels : list string.
Variable frames_per_second : Z.
Context {event : Type}.
Variable average_precision_score : out_value → out_value → result (list Q).
Variable write_submission : output → sed_params → string → result unit.
Variable read_csv_file_for_sed_eval_tool :
  string → result (gmap string (list event)).
Context {event_metric segment_metric : Type}.
Variable EventBasedMetrics : list string → event_metric.
Variable event_evaluate :
  event_metric → list event → list event → result event_metric.
Variable event_results : event_metric → gmap string (gmap string Q).
Variable SegmentBasedMetrics : list string → segment_metric.
Variable segment_evaluate :
  segment_metric → list event → list event → result segment_metric.
Variable segment_results : segment_metric → gmap string (gmap string Q).
Variable call_global : string → detector_args → result (list (nat * nat)).
Variable plot : output → nat → ndarray → result unit.

Local Abbreviation evaluate :=
  (Evaluator.evaluate labels frames_per_second average_precision_score
     write_submission read_csv_file_for_sed_eval_tool
     EventBasedMetrics event_evaluate event_results
     SegmentBasedMetrics segment_evaluate segment_results).
Local Abbreviation class_step := (Evaluator.class_step call_global).
Local Abbreviation detect_class := (Evaluator.detect_class call_global).
Local Abbreviation visualize_clip := (Evaluator.visualize_clip labels call_global plot).
Local Abbreviation visualize :=
  (Evaluator.visualize labels frames_per_second call_global plot).
Local Abbreviation print_clip := (Evaluator.print_clip labels).
Local Abbreviation print_class := (Evaluator.print_class labels).

(** The guarded lookup never raises. *)
Lemma clip_events_default (d : gmap string (list event)) audio_name :
  Evaluator.clip_events d audio_name = Ok (default [] (d !! audio_name)).
Proof.
  unfold Evaluator.clip_events, getitem.
  destruct (contains d audio_name) eqn:Hc.
  - apply contains_true in Hc as [es Hes]. rewrite Hes. reflexivity.
  - apply contains_false in Hc. rewrite Hc. reflexivity.
Qed.

Lemma evaluate_clip_default
    (reference_dict predict_dict : gmap string (list event))
    (acc : event_metric * segment_metric) name :
  Evaluator.evaluate_clip event_evaluate segment_evaluate
    reference_dict predict_dict acc name
  = (event_based_metric ←
       event_evaluate acc.1 (default [] (reference_dict !! name))
         (default [] (predict_dict !! name));
     segment_based_metric ←
       segment_evaluate acc.2 (default [] (reference_dict !! name))
         (default [] (predict_dict !! name));
     Ok (event_based_metric, segment_based_metric)).
Proof.
  unfold Evaluator.evaluate_clip. rewrite !clip_events_default. reflexivity.
Qed.

(** The loop of lines 102-114 is the feeding of the accumulators. *)
Lemma clip_loop_feeds (reference_dict predict_dict : gmap string (list event))
    audio_names acc :
  for_each audio_names
    (Evaluator.evaluate_clip event_evaluate segment_evaluate
       reference_dict predict_dict) acc
  = feed_clips event_evaluate segment_evaluate reference_dict predict_dict
      audio_names acc.
Proof.
  unfold feed_clips. revert acc.
  induction audio_names as [|name names IH]; intros acc; [reflexivity|].
  cbn [for_each]. rewrite evaluate_clip_default.
  destruct (event_evaluate acc.1 _ _) as [e|err]; [|reflexivity].
  change (Ok e ≫= ?f) with (f e). cbv beta.
  destruct (segment_evaluate acc.2 _ _) as [sm|err]; [|reflexivity].
  apply IH.
Qed.

(** With the module's own globals the class step either skips the class
    or stops at the unbound name. *)
Lemma class_step_module p output_dict n ep k :
  class_step module_globals p output_dict n ep k =
    match array_item output_dict "clipwise_output" [n; k] with
    | Err e => Err e
    | Ok c =>
        if gate p c then Err (NameError "activity_detection") else Ok ep
    end.
Proof.
  unfold Evaluator.class_step.
  destruct (array_item output_dict "clipwise_output" [n; k]) as [c|e];
    [|reflexivity].
  change (Ok c ≫= ?f) with (f c). cbv beta.
  destruct (gate p c); [|reflexivity].
  unfold Evaluator.detect_class. rewrite activity_detection_unbound. reflexivity.
Qed.

(** A clip whose prints went through has a clipwise score for every class. *)
Lemma print_clip_clipwise output_dict classes_num n k :
  print_clip output_dict classes_num n = Ok () →
  (k < classes_num)%nat →
  ∃ c, array_item output_dict "clipwise_output" [n; k] = Ok c.
Proof.
  unfold Evaluator.print_clip. intros Hprint Hk.
  destruct (getitem output_dict "audio_name" ≫= as_names) as [names|e];
    [|discriminate].
  simpl in Hprint. destruct (getindex names n) as [name|e]; [|discriminate].
  simpl in Hprint.
  assert (Hin : k ∈ seq 0 classes_num) by (apply elem_of_seq; lia).
  pose proof (for_each_unit_ok _ _ _ Hprint Hin) as Hk'.
  unfold Evaluator.print_class in Hk'.
  destruct (getindex labels k); [|discriminate]. simpl in Hk'.
  destruct (array_item output_dict "weak_target" [n; k]); [|discriminate].
  simpl in Hk'.
  destruct (array_item output_dict "clipwise_output" [n; k]) as [c|e];
    [eauto|discriminate].
Qed.

(** When every class of the clip has a clipwise score, the loop over
    classes goes through or stops at the unbound name. *)
Lemma class_loop_ok_or_name_error p output_dict n (ks : list nat) :
  (∀ k, k ∈ ks → ∃ c, array_item output_dict "clipwise_output" [n; k] = Ok c) →
  ∀ ep,
    for_each ks (class_step module_globals p output_dict n) ep = Ok ep
    ∨ for_each ks (class_step module_globals p output_dict n) ep
      = Err (NameError "activity_detection").
Proof.
  induction ks as [|k ks IH]; intros Hall ep; [left; reflexivity|].
  cbn [for_each]. rewrite class_step_module.
  destruct (Hall k) as [c ->]; [left|].
  destruct (gate p c); [right; reflexivity|].
  apply IH. intros k' Hin. apply Hall. right. exact Hin.
Qed.

(** The loop over classes of a clip with a class above the gate. *)
Lemma class_loop_fails (P : exn → Prop) p output_dict n classes_num k c :
  (k < classes_num)%nat →
  array_item output_dict "clipwise_output" [n; k] = Ok c →
  gate p c = true →
  P (NameError "activity_detection") →
  (∀ k', (k' < k)%nat →
     (∃ c', array_item output_dict "clipwise_output" [n; k'] = Ok c')
     ∨ (∃ e, array_item output_dict "clipwise_output" [n; k'] = Err e ∧ P e)) →
  ∀ ep, ∃ e,
    for_each (seq 0 classes_num) (class_step module_globals p output_dict n) ep
      = Err e ∧ P e.
Proof.
  intros Hk Hc Hgate HP Hpre. rewrite (seq_split_at k classes_num Hk).
  apply for_each_fails.
  - intros ep. rewrite class_step_module, Hc, Hgate. eauto.
  - intros ep k' Hin. apply elem_of_seq in Hin.
    rewrite class_step_module.
    destruct (Hpre k') as [(c' & ->)|(e & -> & He)]; [lia| |eauto].
    destruct (gate p c'); eauto.
Qed.

(** ** Claims about [Evaluator.evaluate] *)

(** C4: a clip that is missing from the reference mapping or from the
    prediction mapping is not an error. The lookup of a clip's events
    always returns, with the empty list for an identifier that is not a
    key. So on a mapping with both kinds of target, once the submission
    is written and the two files are read, [evaluate] is exactly the
    feeding of the two accumulators, clip after clip of the clip list,
    with the clip's reference and prediction lists (empty where the clip
    is missing), followed by the reading of their class-wise averages:
    whatever the clip list and the two mappings, the loop adds no
    exception of its own, and it runs to its end whenever the
    accumulators accept every clip. *)
Theorem missing_clip_is_no_events
    (metadata_path submission_path : string) (output_dict : output)
    (weak_target clipwise_output strong_target : out_value)
    (average_precision : list Q)
    (reference_dict predict_dict : gmap string (list event))
    (audio_names : list string) :
  output_dict !! "weak_target" = Some weak_target →
  output_dict !! "clipwise_output" = Some clipwise_output →
  average_precision_score weak_target clipwise_output = Ok average_precision →
  output_dict !! "strong_target" = Some strong_target →
  write_submission output_dict (sed_params_dict frames_per_second)
    submission_path = Ok () →
  read_csv_file_for_sed_eval_tool metadata_path = Ok reference_dict →
  read_csv_file_for_sed_eval_tool submission_path = Ok predict_dict →
  output_dict !! "audio_name" = Some (ONames audio_names) →
  (∀ (d : gmap string (list event)) audio_name,
     Evaluator.clip_events d audio_name = Ok (default [] (d !! audio_name))
     ∧ (d !! audio_name = None → Evaluator.clip_events d audio_name = Ok []))
  ∧ evaluate metadata_path submission_path (Ok output_dict)
    = (acc ← feed_clips event_evaluate segment_evaluate
               reference_dict predict_dict audio_names
               (EventBasedMetrics labels, SegmentBasedMetrics labels);
       event_metrics ← Evaluator.metrics_record (event_results acc.1);
       segment_metrics ← Evaluator.metrics_record (segment_results acc.2);
       Ok (Some (<["segment_metrics" := segment_metrics]>
                (<["event_metrics" := event_metrics]>
                (<["average_precision" := VArray average_precision]> ∅)))))
  ∧ ((∀ a r p, ∃ a', event_evaluate a r p = Ok a') →
     (∀ a r p, ∃ a', segment_evaluate a r p = Ok a') →
     ∃ acc, feed_clips event_evaluate segment_evaluate
              reference_dict predict_dict audio_names
              (EventBasedMetrics labels, SegmentBasedMetrics labels) = Ok acc).
Proof.
  intros Hwt Hco Hap Hst Hwrite Href Hpred Hnames. split; [|split].
  - intros d audio_name. split; [apply clip_events_default|].
    intros Hnone. rewrite clip_events_default, Hnone. reflexivity.
  - unfold Evaluator.evaluate. bind_ok.
    rewrite (proj2 (contains_true output_dict "weak_target")) by eauto.
    unfold getitem. rewrite Hwt, Hco. bind_ok. rewrite Hap. bind_ok.
    rewrite (proj2 (contains_true output_dict "strong_target")) by eauto.
    rewrite Hwrite. bind_ok. rewrite Href. bind_ok. rewrite Hpred. bind_ok.
    rewrite Hnames. bind_ok. cbn [as_names]. bind_ok.
    rewrite clip_loop_feeds. reflexivity.
  - intros Hevent Hsegment. unfold feed_clips. clear Hnames.
    generalize (EventBasedMetrics labels, SegmentBasedMetrics labels).
    induction audio_names as [|name names IH]; intros acc; [eauto|].
    cbn [for_each].
    destruct (Hevent acc.1 (default [] (reference_dict !! name))
                (default [] (predict_dict !! name))) as [e ->].
    change (Ok e ≫= ?f) with (f e). cbv beta.
    destruct (Hsegment acc.2 (default [] (reference_dict !! name))
                (default [] (predict_dict !! name))) as [sm ->].
    apply IH.
Qed.

(** C9: when the mapping returned by the forward pass has no
    ['weak_target'], [evaluate] raises the undefined-name error for the
    local [average_precision] while it builds the statistics record; and
    whatever the forward pass returned, a record that [evaluate] returns
    has the key ['average_precision']. *)
Theorem evaluate_without_weak_target
    (metadata_path submission_path : string) (output_dict : output) :
  output_dict !! "weak_target" = None →
  evaluate metadata_path submission_path (Ok output_dict)
    = Err (UnboundLocalError "average_precision")
  ∧ is_name_error (UnboundLocalError "average_precision") = true
  ∧ ∀ fwd statistics,
      evaluate metadata_path submission_path fwd = Ok (Some statistics) →
      is_Some (statistics !! "average_precision").
Proof.
  intros Hweak. split; [|split; [reflexivity|]].
  - unfold Evaluator.evaluate.
    change (Ok output_dict ≫= ?f) with (f output_dict). cbv beta.
    apply contains_false in Hweak. rewrite Hweak. reflexivity.
  - intros fwd statistics. unfold Evaluator.evaluate.
    destruct fwd as [od|e]; [|discriminate].
    change (Ok od ≫= ?f) with (f od). cbv beta.
    destruct (contains od "weak_target"); [|discriminate].
    destruct (getitem od "weak_target") as [wt|e]; [|discriminate].
    change (Ok wt ≫= ?f) with (f wt). cbv beta.
    destruct (getitem od "clipwise_output") as [co|e]; [|discriminate].
    change (Ok co ≫= ?f) with (f co). cbv beta.
    destruct (average_precision_score wt co) as [ap|e]; [|discriminate].
    simpl.
    destruct (contains od "strong_target"); [|discriminate].
    repeat match goal with
           | |- context [mbind _ ?m] =>
               lazymatch m with
               | Ok _ => fail
               | _ => destruct m; [|discriminate]
               end; simpl
           end.
    intros [= <-]. rewrite !lookup_insert_ne by discriminate.
    rewrite lookup_insert_eq. eauto.
Qed.

(** C1, the behaviour of the code: with clip-level targets, clip-level
    scores and a computed average precision but no ['strong_target'],
    [evaluate] builds the record and then falls off its end, because its
    only [return] is inside the frame-level branch: the caller gets
    [None], not the record. *)
Theorem evaluate_weak_only_returns_none
    (metadata_path submission_path : string) (output_dict : output)
    (weak_target clipwise_output : out_value) (average_precision : list Q) :
  output_dict !! "weak_target" = Some weak_target →
  output_dict !! "clipwise_output" = Some clipwise_output →
  average_precision_score weak_target clipwise_output = Ok average_precision →
  output_dict !! "strong_target" = None →
  evaluate metadata_path submission_path (Ok output_dict) = Ok None.
Proof.
  intros Hweak Hclip Hap Hstrong. unfold Evaluator.evaluate.
  change (Ok output_dict ≫= ?f) with (f output_dict). cbv beta.
  assert (Hc : contains output_dict "weak_target" = true)
    by (apply contains_true; eauto).
  rewrite Hc. unfold getitem. rewrite Hweak, Hclip. simpl. rewrite Hap. simpl.
  apply contains_false in Hstrong. rewrite Hstrong. reflexivity.
Qed.

(** ** Claims about [Evaluator.visualize] *)

(** C2, amended: the clip-level gate compares the class's clipwise
    score against [sed_high_threshold], not against
    [audio_tagging_threshold], and the comparison is strict. For every
    clip and class: when the clipwise score is at or below
    [sed_high_threshold] no events are emitted for that class and
    nothing is called; when it is strictly above, the class step is the
    call of [activity_detection] followed by the marking of the pairs it
    returns. Where that name is bound the call receives that class's
    framewise scores with [thres] the high threshold, [low_thres] the low
    threshold and the two window lengths; where it is not bound the call
    is the undefined-name error. The value of [audio_tagging_threshold]
    plays no part. *)
Theorem clip_gate_is_strict
    (globals : list string) (output_dict : output) (n k : nat)
    (event_prediction : ndarray) (clipwise : Q) :
  array_item output_dict "clipwise_output" [n; k] = Ok clipwise →
  let p := sed_params_dict frames_per_second in
  ((clipwise <= sed_high_threshold p)%Q →
     class_step globals p output_dict n event_prediction k
     = Ok event_prediction)
  ∧ ((sed_high_threshold p < clipwise)%Q →
     class_step globals p output_dict n event_prediction k
     = detect_class globals p output_dict n k
         ≫= λ pairs, Ok (Evaluator.mark_pairs event_prediction k pairs))
  ∧ ("activity_detection" ∈ globals →
     ∀ framewise scores,
       output_dict !! "framewise_output" = Some (OArray framewise) →
       slice_frames framewise n k = Ok scores →
       detect_class globals p output_dict n k
       = call_global "activity_detection"
           {| x := scores;
              thres := sed_high_threshold p;
              low_thres := sed_low_threshold p;
              arg_n_smooth := frames_per_second / 4;
              arg_n_salt := frames_per_second / 4 |})
  ∧ ("activity_detection" ∉ globals →
     detect_class globals p output_dict n k
     = Err (NameError "activity_detection"))
  ∧ (∀ tagging_threshold,
       class_step globals
         {| audio_tagging_threshold := tagging_threshold;
            sed_high_threshold := sed_high_threshold p;
            sed_low_threshold := sed_low_threshold p;
            n_smooth := n_smooth p;
            n_salt := n_salt p |}
         output_dict n event_prediction k
       = class_step globals p output_dict n event_prediction k).
Proof.
  intros Hitem p. split; [|split; [|split; [|split; [|reflexivity]]]].
  - intros Hle. unfold Evaluator.class_step. rewrite Hitem. bind_ok.
    assert (Hgate : gate p clipwise = false) by (apply Qgtb_false; exact Hle).
    rewrite Hgate. reflexivity.
  - intros Hlt. unfold Evaluator.class_step. rewrite Hitem. bind_ok.
    assert (Hgate : gate p clipwise = true) by (apply Qgtb_true; exact Hlt).
    rewrite Hgate. reflexivity.
  - intros Hbound framewise scores Hfw Hslice.
    unfold Evaluator.detect_class, lookup_global.
    rewrite (bool_decide_eq_true_2 _ Hbound). bind_ok.
    unfold getitem. rewrite Hfw. bind_ok. cbn [as_array]. bind_ok.
    rewrite Hslice. reflexivity.
  - intros Hunbound. unfold Evaluator.detect_class, lookup_global.
    rewrite (bool_decide_eq_false_2 _ Hunbound). reflexivity.
Qed.

(** C10, amended: on a mapping whose framewise output has shape
    (clips, frames, classes), a call of [visualize] in which some clip
    and class within that shape has a clipwise score strictly above
    [sed_high_threshold] never completes: it raises. The exception is
    either the undefined-name error for [activity_detection] or the
    exception raised by one of the statements that run before that gate,
    a print of a clip up to that one or a plot of an earlier clip; it is
    the undefined-name error whenever all those statements go through. *)
Theorem visualize_fails_at_open_gate
    (output_dict : output) (framewise : ndarray)
    (audios_num frames_num classes_num n k : nat) (clipwise : Q) :
  output_dict !! "framewise_output" = Some (OArray framewise) →
  shape framewise = [audios_num; frames_num; classes_num] →
  (n < audios_num)%nat → (k < classes_num)%nat →
  array_item output_dict "clipwise_output" [n; k] = Ok clipwise →
  (sed_high_threshold (sed_params_dict frames_per_second) < clipwise)%Q →
  ∃ e,
    visualize (Ok output_dict) = Err e
    ∧ (e = NameError "activity_detection"
       ∨ ∃ n', (n' ≤ n)%nat
               ∧ (print_clip output_dict classes_num n' = Err e
                  ∨ ((n' < n)%nat
                     ∧ plot output_dict n' (zeros [frames_num; classes_num])
                       = Err e)))
    ∧ ((∀ n', (n' ≤ n)%nat → print_clip output_dict classes_num n' = Ok ()) →
       (∀ n', (n' < n)%nat →
          plot output_dict n' (zeros [frames_num; classes_num]) = Ok ()) →
       e = NameError "activity_detection").
Proof.
  intros Hfw Hshape Hn Hk Hitem Hlt.
  apply Qgtb_true in Hlt.
  fold (gate (sed_params_dict frames_per_second) clipwise) in Hlt.
  set (p := sed_params_dict frames_per_second) in *.
  assert (Hvis : visualize (Ok output_dict)
                 = for_each (seq 0 audios_num)
                     (visualize_clip module_globals p output_dict
                        frames_num classes_num) ()).
  { unfold Evaluator.visualize, Evaluator.visualize_in. bind_ok.
    unfold getitem. rewrite Hfw. bind_ok. cbn [as_array]. bind_ok.
    unfold unpack_shape3. rewrite Hshape. reflexivity. }
  rewrite Hvis, (seq_split_at n audios_num Hn).
  set (P := λ e : exn,
         e = NameError "activity_detection"
         ∨ ∃ n', (n' ≤ n)%nat
                 ∧ (print_clip output_dict classes_num n' = Err e
                    ∨ ((n' < n)%nat
                       ∧ plot output_dict n' (zeros [frames_num; classes_num])
                         = Err e))).
  destruct (for_each_fails P
              (visualize_clip module_globals p output_dict frames_num classes_num)
              (seq 0 n) n (seq (S n) (audios_num - S n))) with (s := ())
    as (e & He & HP).
  - intros []. unfold Evaluator.visualize_clip.
    destruct (print_clip output_dict classes_num n) as [[]|e] eqn:Hprint.
    2:{ exists e. split; [reflexivity|]. right. exists n. split; [lia|]. left.
        exact Hprint. }
    bind_ok.
    destruct (class_loop_fails (λ e, e = NameError "activity_detection")
                p output_dict n classes_num k clipwise Hk Hitem Hlt eq_refl)
      with (ep := zeros [frames_num; classes_num]) as (e & -> & ->).
    + intros k' Hk'. left.
      apply (print_clip_clipwise output_dict classes_num); [exact Hprint|]. lia.
    + exists (NameError "activity_detection"). split; [reflexivity|]. left.
      reflexivity.
  - intros [] n' Hin. apply elem_of_seq in Hin.
    unfold Evaluator.visualize_clip.
    destruct (print_clip output_dict classes_num n') as [[]|e] eqn:Hprint.
    2:{ right. exists e. split; [reflexivity|]. right. exists n'.
        split; [lia|]. left. exact Hprint. }
    bind_ok.
    destruct (class_loop_ok_or_name_error p output_dict n' (seq 0 classes_num))
      with (ep := zeros [frames_num; classes_num]) as [->| ->].
    + intros k' Hk'. apply elem_of_seq in Hk'.
      apply (print_clip_clipwise output_dict classes_num); [exact Hprint|]. lia.
    + bind_ok.
      destruct (plot output_dict n' (zeros [frames_num; classes_num]))
        as [[]|e] eqn:Hplot; [left; eauto|].
      right. exists e. split; [reflexivity|]. right. exists n'.
      split; [lia|]. right. split; [lia|exact Hplot].
    + right. exists (NameError "activity_detection"). split; [reflexivity|].
      left. reflexivity.
  - exists e. split; [exact He|]. split; [exact HP|].
    intros Hprint Hplot. destruct HP as [->|(n' & Hn' & [Hp|[Hlt' Hp]])];
      [reflexivity| |].
    + rewrite (Hprint n' Hn') in Hp. discriminate.
    + rewrite (Hplot n' Hlt') in Hp. discriminate.
Qed.

End EvaluatorFacts.

(** C4 on two clips, the first missing from the submission and the
    second missing from the reference: both accumulators are fed the
    pairs ([7], []) and ([], [8; 9]), and the record counts two clips,
    one without reference events and one without predicted events. *)
Lemma missing_clip_is_no_events_witness :
  let reference_dict : gmap string (list nat) := {[ "clip_a" := [7%nat] ]} in
  let predict_dict : gmap string (list nat) := {[ "clip_b" := [8%nat; 9%nat] ]} in
  let counts :=
    VMetrics (<["f_measure" := 2%Q]>
             (<["error_rate" := 1%Q]>
             (<["deletion_rate" := 1%Q]>
             (<["insertion_rate" := 0%Q]> ∅)))) in
  two_clip_output !! "weak_target" = Some (OArray (const_array [2; 1]%nat 1))
  ∧ two_clip_output !! "clipwise_output"
    = Some (OArray (const_array [2; 1]%nat (8 # 10)))
  ∧ two_clip_output !! "strong_target"
    = Some (OArray (const_array [2; 1; 1]%nat 1))
  ∧ read_two_files "metadata.csv" = Ok reference_dict
  ∧ read_two_files "submission.csv" = Ok predict_dict
  ∧ two_clip_output !! "audio_name" = Some (ONames ["clip_a"; "clip_b"])
  ∧ reference_dict !! "clip_b" = None
  ∧ predict_dict !! "clip_a" = None
  ∧ feed_clips recording_evaluate recording_evaluate reference_dict predict_dict
      ["clip_a"; "clip_b"] ([], [])
    = Ok ([([7%nat], []); ([], [8%nat; 9%nat])],
          [([7%nat], []); ([], [8%nat; 9%nat])])
  ∧ Evaluator.evaluate ["Speech"] 50 aps_ok write_ok read_two_files
      recording_metric recording_evaluate recording_results
      recording_metric recording_evaluate recording_results
      "metadata.csv" "submission.csv" (Ok two_clip_output)
    = Ok (Some (<["segment_metrics" := counts]>
               (<["event_metrics" := counts]>
               (<["average_precision" := VArray [1%Q]]> ∅)))).
Proof.
  intros reference_dict predict_dict counts.
  repeat (split; [reflexivity|]).
  destruct (missing_clip_is_no_events ["Speech"] 50 aps_ok write_ok read_two_files
              recording_metric recording_evaluate recording_results
              recording_metric recording_evaluate recording_results
              "metadata.csv" "submission.csv" two_clip_output
              (OArray (const_array [2; 1]%nat 1))
              (OArray (const_array [2; 1]%nat (8 # 10)))
              (OArray (const_array [2; 1; 1]%nat 1))
              [1%Q] reference_dict predict_dict ["clip_a"; "clip_b"]
              eq_refl eq_refl eq_refl eq_refl eq_refl eq_refl eq_refl eq_refl)
    as (_ & Heval & _).
  rewrite Heval. reflexivity.
Defined.

(** C9 on a mapping with scores and clip names but no targets. *)
Lemma evaluate_without_weak_target_witness :
  one_clip_output (8 # 10) !! "weak_target" = None
  ∧ Evaluator.evaluate ["Speech"] 50 aps_ok write_ok read_empty
      unit_metric unit_evaluate no_results unit_metric unit_evaluate no_results
      "metadata.csv" "submission.csv" (Ok (one_clip_output (8 # 10)))
    = Err (UnboundLocalError "average_precision").
Proof.
  split; [reflexivity|].
  apply (evaluate_without_weak_target ["Speech"] 50 aps_ok write_ok read_empty
           unit_metric unit_evaluate no_results unit_metric unit_evaluate
           no_results "metadata.csv" "submission.csv" (one_clip_output (8 # 10))).
  reflexivity.
Defined.

(** C1 on a mapping with clip-level targets only: the record is not
    returned. *)
Lemma evaluate_weak_only_returns_none_witness :
  weak_output (8 # 10) !! "weak_target" = Some (OArray (const_array [1; 1]%nat 1))
  ∧ weak_output (8 # 10) !! "clipwise_output"
    = Some (OArray (const_array [1; 1]%nat (8 # 10)))
  ∧ aps_ok (OArray (const_array [1; 1]%nat 1))
      (OArray (const_array [1; 1]%nat (8 # 10))) = Ok [1%Q]
  ∧ weak_output (8 # 10) !! "strong_target" = None
  ∧ Evaluator.evaluate ["Speech"] 50 aps_ok write_ok read_empty
      unit_metric unit_evaluate no_results unit_metric unit_evaluate no_results
      "metadata.csv" "submission.csv" (Ok (weak_output (8 # 10)))
    = Ok None.
Proof.
  repeat (split; [reflexivity|]).
  apply (evaluate_weak_only_returns_none ["Speech"] 50 aps_ok write_ok read_empty
           unit_metric unit_evaluate no_results unit_metric unit_evaluate
           no_results "metadata.csv" "submission.csv" (weak_output (8 # 10))
           (OArray (const_array [1; 1]%nat 1))
           (OArray (const_array [1; 1]%nat (8 # 10))) [1%Q]);
    reflexivity.
Defined.

(** C2 as stated fails twice over. A clipwise score of 0.7 is not below
    [audio_tagging_threshold], yet the class step emits nothing and
    calls nothing, even where [activity_detection] is bound to a
    detector that reports an event: the threshold compared against is
    [sed_high_threshold]. And a clipwise score equal to
    [sed_high_threshold] is not below it, yet again nothing is emitted:
    the comparison is strict. *)
Lemma clip_gate_counterexample :
  let p := sed_params_dict 50 in
  (array_item (one_clip_output (7 # 10)) "clipwise_output" [0; 0]%nat
     = Ok (7 # 10)%Q
   ∧ ¬ (7 # 10 < audio_tagging_threshold p)%Q
   ∧ ∀ globals event_prediction,
       Evaluator.class_step call_whole_clip globals p (one_clip_output (7 # 10))
         0 event_prediction 0 = Ok event_prediction)
  ∧ (array_item (one_clip_output (sed_high_threshold p)) "clipwise_output"
       [0; 0]%nat = Ok (sed_high_threshold p)
     ∧ ¬ (sed_high_threshold p < sed_high_threshold p)%Q
     ∧ ∀ globals event_prediction,
         Evaluator.class_step call_whole_clip globals p
           (one_clip_output (sed_high_threshold p)) 0 event_prediction 0
         = Ok event_prediction).
Proof.
  intros p. split; (split; [reflexivity|split]).
  - apply Qle_not_lt. discriminate.
  - intros globals event_prediction. reflexivity.
  - apply Qlt_irrefl.
  - intros globals event_prediction. reflexivity.
Qed.

(** C2 (amended) on a clip scored 0.95, in a namespace that binds the
    name to a detector reporting the whole clip: the gate is open and
    the event is drawn. *)
Lemma clip_gate_is_strict_witness :
  let p := sed_params_dict 50 in
  let output_dict := one_clip_output (95 # 100) in
  array_item output_dict "clipwise_output" [0; 0]%nat = Ok (95 # 100)%Q
  ∧ (sed_high_threshold p < 95 # 100)%Q
  ∧ "activity_detection" ∈ ["activity_detection"]
  ∧ ∃ event_prediction,
      Evaluator.class_step call_whole_clip ["activity_detection"] p output_dict
        0 (zeros [1; 1]%nat) 0 = Ok event_prediction
      ∧ item event_prediction [0; 0]%nat = 1%Q
      ∧ item (zeros [1; 1]%nat) [0; 0]%nat = 0%Q.
Proof.
  intros p output_dict.
  assert (Hitem : array_item output_dict "clipwise_output" [0; 0]%nat
                  = Ok (95 # 100)%Q) by reflexivity.
  assert (Hlt : (sed_high_threshold p < 95 # 100)%Q) by reflexivity.
  assert (Hbound : "activity_detection" ∈ ["activity_detection"]) by left.
  split; [exact Hitem|]. split; [exact Hlt|]. split; [exact Hbound|].
  subst p output_dict.
  destruct (clip_gate_is_strict 50 call_whole_clip ["activity_detection"]
              (one_clip_output (95 # 100)) 0 0 (zeros [1; 1]%nat) (95 # 100)
              Hitem)
    as (_ & Hopen & Hcall & _).
  eexists. split.
  - rewrite (Hopen Hlt).
    rewrite (Hcall Hbound (const_array [1; 1; 1]%nat (95 # 100)) [(95 # 100)%Q]
               eq_refl eq_refl).
    reflexivity.
  - split; reflexivity.
Defined.

(** C10 as stated fails twice over. Without ['weak_target'] in the
    mapping the prints of the first clip raise [KeyError] before the
    gate is reached, although the clip's only class is scored above
    [sed_high_threshold]. And a score above [sed_high_threshold] at a
    class beyond the classes of the framewise output is never looked
    at: the call completes. *)
Lemma visualize_key_error_counterexample :
  (array_item (one_clip_output (95 # 100)) "clipwise_output" [0; 0]%nat
     = Ok (95 # 100)%Q
   ∧ (sed_high_threshold (sed_params_dict 50) < 95 # 100)%Q
   ∧ Evaluator.visualize ["Speech"] 50 call_none plot_ok
       (Ok (one_clip_output (95 # 100)))
     = Err (KeyError "weak_target")
   ∧ is_name_error (KeyError "weak_target") = false)
  ∧ (array_item (extra_class_output (1 # 2) (95 # 100)) "clipwise_output"
       [0; 1]%nat = Ok (95 # 100)%Q
     ∧ (sed_high_threshold (sed_params_dict 50) < 95 # 100)%Q
     ∧ Evaluator.visualize ["Speech"] 50 call_none plot_ok
         (Ok (extra_class_output (1 # 2) (95 # 100)))
       = Ok ()).
Proof. repeat split. Qed.

(** C10 (amended) on a mapping with clip-level targets. *)
Lemma visualize_fails_at_open_gate_witness :
  let output_dict := weak_output (95 # 100) in
  output_dict !! "framewise_output"
    = Some (OArray (const_array [1; 1; 1]%nat (95 # 100)))
  ∧ shape (const_array [1; 1; 1]%nat (95 # 100)) = [1; 1; 1]%nat
  ∧ (0 < 1)%nat ∧ (0 < 1)%nat
  ∧ array_item output_dict "clipwise_output" [0; 0]%nat = Ok (95 # 100)%Q
  ∧ (sed_high_threshold (sed_params_dict 50) < 95 # 100)%Q
  ∧ Evaluator.visualize ["Speech"] 50 call_none plot_ok (Ok output_dict)
    = Err (NameError "activity_detection").
Proof.
  intros output_dict.
  repeat (split; [first [reflexivity|lia]|]).
  destruct (visualize_fails_at_open_gate ["Speech"] 50 call_none plot_ok
              output_dict (const_array [1; 1; 1]%nat (95 # 100)) 1 1 1 0 0
              (95 # 100) eq_refl eq_refl ltac:(lia) ltac:(lia) eq_refl eq_refl)
    as (e & Hrun & _ & Hname).
  rewrite Hrun. f_equal. apply Hname.
  - intros n' Hn'. assert (n' = 0)%nat as -> by lia. reflexivity.
  - intros n' Hn'. lia.
Defined.

(** ** The activity detector *)

(** Inside a region that has already reached the high threshold, scores
    that all stay at or above it keep the region open to the last frame. *)
Lemma hysteresis_all_high (high low : Q) (scores : list Q) :
  (low <= high)%Q →
  Forall (λ s, (high <= s)%Q) scores →
  ∀ t start,
    Detector.hysteresis high low scores t (Some (start, true))
    = [(start, (t + length scores)%nat)].
Proof.
  intros Hlh Hall. induction Hall as [|s rest Hs _ IH]; intros t start; simpl.
  - rewrite Nat.add_0_r. reflexivity.
  - assert (Hlow : Qle_bool low s = true)
      by (apply Qle_bool_iff; eapply Qle_trans; eassumption).
    rewrite Hlow. rewrite IH. do 2 f_equal. lia.
Qed.

(** C7 as stated fails: the preconditions put no upper bound on
    [salt_window], and a window longer than the input removes the one
    segment. A single frame scored 0.95 with [salt_window = 2] gives no
    interval. *)
Lemma detect_salt_counterexample :
  Detector.preconditions [95 # 100]%Q (9 # 10) (3 # 10)
  ∧ Forall (λ s, (9 # 10 <= s)%Q) [95 # 100]%Q
  ∧ Detector.detect [95 # 100]%Q (9 # 10) (3 # 10) 0 2 = []
  ∧ Detector.detect [95 # 100]%Q (9 # 10) (3 # 10) 0 2 ≠ [(0, 1)]%nat.
Proof.
  split.
  { unfold Detector.preconditions. repeat split; try discriminate. simpl. lia. }
  split.
  { constructor; [discriminate|constructor]. }
  split; [reflexivity|discriminate].
Qed.

(** C7, amended: for every non-empty score sequence of length F whose
    values are all at or above [high_threshold], and every parameters
    that satisfy the preconditions with [salt_window] at most F, the
    detector returns exactly the interval [[0, F)]. *)
Theorem detect_all_above_high (scores : list Q) (high_threshold low_threshold : Q)
    (smooth_window salt_window : nat) :
  Detector.preconditions scores high_threshold low_threshold →
  Forall (λ s, (high_threshold <= s)%Q) scores →
  (salt_window ≤ length scores)%nat →
  Detector.detect scores high_threshold low_threshold smooth_window salt_window
  = [(0, length scores)]%nat.
Proof.
  intros (_ & Hlh & _ & Hlen) Hall Hsalt. unfold Detector.detect.
  destruct scores as [|s rest]; [simpl in Hlen; lia|].
  apply Forall_cons in Hall as [Hs Hrest].
  assert (Hlow : Qle_bool low_threshold s = true)
    by (apply Qle_bool_iff; eapply Qle_trans; eassumption).
  assert (Hhigh : Qle_bool high_threshold s = true)
    by (apply Qle_bool_iff; exact Hs).
  cbn [Detector.hysteresis]. rewrite Hlow, Hhigh.
  rewrite (hysteresis_all_high _ _ _ Hlh Hrest).
  cbn [Detector.gap_smoothing Detector.smooth_from Detector.salt_removal
       List.filter fst snd].
  replace (1 + length rest - 0 <? salt_window)%nat with false
    by (symmetry; apply Nat.ltb_ge; simpl in Hsalt; lia).
  cbn [negb Detector.clip_to map fst snd length].
  rewrite Nat.min_0_l, Nat.min_id. reflexivity.
Qed.

(** C7 (amended) on three frames and windows of 10 and 2 frames. *)
Lemma detect_all_above_high_witness :
  Detector.preconditions [95 # 100; 1; 1]%Q (9 # 10) (3 # 10)
  ∧ Forall (λ s, (9 # 10 <= s)%Q) [95 # 100; 1; 1]%Q
  ∧ (2 ≤ length [95 # 100; 1; 1]%Q)%nat
  ∧ Detector.detect [95 # 100; 1; 1]%Q (9 # 10) (3 # 10) 10 2 = [(0, 3)]%nat.
Proof.
  assert (Hpre : Detector.preconditions [95 # 100; 1; 1]%Q (9 # 10) (3 # 10)).
  { unfold Detector.preconditions. repeat split; try discriminate. simpl. lia. }
  assert (Hall : Forall (λ s, (9 # 10 <= s)%Q) [95 # 100; 1; 1]%Q).
  { repeat (constructor; [discriminate|]). constructor. }
  assert (Hsalt : (2 ≤ length [95 # 100; 1; 1]%Q)%nat) by (simpl; lia).
  split; [exact Hpre|]. split; [exact Hall|]. split; [exact Hsalt|].
  exact (detect_all_above_high _ _ _ 10 2 Hpre Hall Hsalt).
Defined.

(* ===================================================================== *)
(** * Further properties of the statistics log *)
(* ===================================================================== *)

Lemma last_iteration_snoc calls it l l' :
  last_iteration (calls ++ [(it, l)]) l'
  = if decide (l = l') then Some it else last_iteration calls l'.
Proof.
  induction calls as [|c calls IH]; simpl.
  - reflexivity.
  - rewrite IH. destruct (decide (l = l')); reflexivity.
Qed.

Lemma last_iteration_None calls l :
  l ∉ calls.*2 → last_iteration calls l = None.
Proof.
  induction calls as [|c calls IH]; intros Hnot; simpl; [reflexivity|].
  rewrite fmap_cons, not_elem_of_cons in Hnot. destruct Hnot as [Hne Hnot].
  rewrite (IH Hnot). destruct (decide (c.2 = l)); congruence.
Qed.

Lemma last_iteration_NoDup calls j it l :
  NoDup calls.*2 → calls !! j = Some (it, l) → last_iteration calls l = Some it.
Proof.
  revert j. induction calls as [|c calls IH]; intros j Hnd Hj.
  - rewrite lookup_nil in Hj. discriminate.
  - rewrite fmap_cons in Hnd. apply NoDup_cons in Hnd as [Hnot Hnd].
    destruct j as [|j]; simpl in Hj.
    + injection Hj as ->. simpl in *. rewrite (last_iteration_None _ _ Hnot).
      destruct (decide (l = l)); congruence.
    + simpl. rewrite (IH j Hnd Hj). reflexivity.
Qed.



Lemma with_iteration_insert o it (d : statistics_dict) :
  <["iteration" := VInt it]> (with_iteration o d) = <["iteration" := VInt it]> d.
Proof. destruct o; simpl; [apply insert_insert_eq|reflexivity]. Qed.

Section LogRuns.

Context {pickled : Type}.
Variable pickle_dump : list statistics_dict → pickled.
Variable pickle_load : pickled → option (list statistics_dict).

(** The state after a run of calls whose arguments all hold dicts. *)
Lemma run_calls_state self (w : @Log.world pickled) calls :
  (∀ l, l ∈ calls.*2 → is_Some (Log.heap w !! l)) →
  ∃ self' w',
    Log.run_calls pickle_dump self w calls = Ok (self', w')
    ∧ Log.statistics_list self' = Log.statistics_list self ++ calls.*2
    ∧ Log.statistics_path self' = Log.statistics_path self
    ∧ Log.backup_statistics_path self' = Log.backup_statistics_path self
    ∧ (∀ l, Log.heap w' !! l
            = with_iteration (last_iteration calls l) <$> Log.heap w !! l)
    ∧ (∀ path, path ≠ Log.statistics_path self →
         path ≠ Log.backup_statistics_path self →
         Log.files w' !! path = Log.files w !! path)
    ∧ (calls ≠ [] →
         let bytes :=
           pickle_dump (Log.deref (Log.heap w') (Log.statistics_list self')) in
         Log.files w' !! Log.statistics_path self = Some bytes
         ∧ Log.files w' !! Log.backup_statistics_path self = Some bytes).
Proof.
  induction calls as [|[it l] calls IH] using rev_ind; intros Hall.
  - exists self, w. simpl. rewrite app_nil_r.
    repeat split; try tauto.
    intros l. destruct (Log.heap w !! l); reflexivity.
  - rewrite fmap_app in Hall. simpl in Hall.
    destruct IH as (self1 & w1 & Hrun & Hlist & Hpath & Hbak & Hheap & Hother & _).
    { intros l' Hin. apply Hall, elem_of_app. left. exact Hin. }
    destruct (Hall l) as [d0 Hd0]; [apply elem_of_app; right; left|].
    assert (Hd1 : Log.heap w1 !! l
                  = Some (with_iteration (last_iteration calls l) d0))
      by (rewrite Hheap, Hd0; reflexivity).
    unfold Log.run_calls in *. rewrite for_each_snoc, Hrun.
    change (Ok (self1, w1) ≫= ?f) with (f (self1, w1)). cbv beta.
    cbn [fst snd]. rewrite (append_and_dump_step _ _ _ _ _ _ Hd1). cbv zeta.
    eexists _, _. split; [reflexivity|]. cbn [Log.statistics_list
      Log.statistics_path Log.backup_statistics_path Log.heap Log.files].
    split; [rewrite Hlist, fmap_app, <- app_assoc; reflexivity|].
    split; [exact Hpath|]. split; [exact Hbak|].
    split.
    { intros l'. rewrite last_iteration_snoc.
      destruct (decide (l = l')) as [<-|Hne].
      - rewrite lookup_insert_eq, with_iteration_insert, Hd0. reflexivity.
      - rewrite lookup_insert_ne by exact Hne. apply Hheap. }
    split.
    { intros path Hp Hb. rewrite Hpath in *. rewrite Hbak in *.
      rewrite !lookup_insert_ne by congruence. apply Hother; assumption. }
    intros _. cbv zeta. rewrite Hpath, Hbak.
    split; [|apply lookup_insert_eq].
    destruct (decide (Log.backup_statistics_path self
                      = Log.statistics_path self)) as [->|Hne].
    + apply lookup_insert_eq.
    + rewrite lookup_insert_ne by exact Hne. apply lookup_insert_eq.
Qed.

(** X1: the in-memory sequence is append-only. Whenever a run of calls
    completes, from any log state, the sequence it found is still there
    as a prefix, followed by the objects passed, in call order and with
    repetitions; nothing is removed or reordered. *)
Theorem statistics_list_is_append_only self (w : @Log.world pickled) calls
    self' w' :
  Log.run_calls pickle_dump self w calls = Ok (self', w') →
  Log.statistics_list self' = Log.statistics_list self ++ calls.*2
  ∧ length (Log.statistics_list self')
    = (length (Log.statistics_list self) + length calls)%nat.
Proof.
  intros Hrun.
  assert (Hlist : Log.statistics_list self'
                  = Log.statistics_list self ++ calls.*2).
  { revert self w Hrun. unfold Log.run_calls.
    induction calls as [|[it l] calls IH]; intros self w Hrun.
    - cbn [for_each] in Hrun. injection Hrun as <- <-.
      rewrite app_nil_r. reflexivity.
    - cbn [for_each fst snd] in Hrun.
      destruct (Log.append_and_dump pickle_dump self w it l)
        as [[self1 w1]|e] eqn:Hstep; [|discriminate].
      destruct (append_and_dump_inv _ _ _ _ _ _ _ Hstep) as [d Hd].
      rewrite (append_and_dump_step _ _ _ _ _ _ Hd) in Hstep.
      cbv zeta in Hstep. injection Hstep as <- <-.
      rewrite (IH _ _ Hrun). cbn [Log.statistics_list].
      rewrite fmap_cons, <- app_assoc. reflexivity. }
  split; [exact Hlist|].
  rewrite Hlist, length_app, length_fmap. reflexivity.
Qed.

(** X2: what a run of calls does to the store. Every dict object ends
    with its ['iteration'] set by the last call that passed it, all its
    other keys as they were; an object that no call passed is untouched;
    no object appears or disappears. *)
Theorem run_sets_iteration_of_last_call self (w : @Log.world pickled) calls :
  (∀ l, l ∈ calls.*2 → is_Some (Log.heap w !! l)) →
  ∃ self' w',
    Log.run_calls pickle_dump self w calls = Ok (self', w')
    ∧ (∀ l, Log.heap w' !! l
            = with_iteration (last_iteration calls l) <$> Log.heap w !! l)
    ∧ (∀ l, l ∉ calls.*2 → Log.heap w' !! l = Log.heap w !! l)
    ∧ (∀ l d d' key, Log.heap w !! l = Some d → Log.heap w' !! l = Some d' →
         key ≠ "iteration" → d' !! key = d !! key).
Proof.
  intros Hall.
  destruct (run_calls_state self w calls Hall)
    as (self' & w' & Hrun & _ & _ & _ & Hheap & _).
  exists self', w'. split; [exact Hrun|]. split; [exact Hheap|]. split.
  - intros l Hnot. rewrite Hheap, (last_iteration_None _ _ Hnot).
    destruct (Log.heap w !! l); reflexivity.
  - intros l d d' key Hd Hd' Hkey. rewrite Hheap, Hd in Hd'.
    injection Hd' as <-. destruct (last_iteration calls l); simpl; [|reflexivity].
    apply lookup_insert_ne. congruence.
Qed.

(** X3: what a run of calls does to the file system. After at least one
    call the primary file and the backup file hold the same bytes, the
    serialisation of the whole in-memory sequence as the store has it
    then; every other file is left as it was. *)
Theorem run_writes_only_its_two_files self (w : @Log.world pickled) calls :
  (∀ l, l ∈ calls.*2 → is_Some (Log.heap w !! l)) →
  calls ≠ [] →
  ∃ self' w',
    Log.run_calls pickle_dump self w calls = Ok (self', w')
    ∧ Log.files w' !! Log.statistics_path self
      = Some (pickle_dump (Log.deref (Log.heap w') (Log.statistics_list self')))
    ∧ Log.files w' !! Log.backup_statistics_path self
      = Log.files w' !! Log.statistics_path self
    ∧ (∀ path, path ≠ Log.statistics_path self →
         path ≠ Log.backup_statistics_path self →
         Log.files w' !! path = Log.files w !! path).
Proof.
  intros Hall Hne.
  destruct (run_calls_state self w calls Hall)
    as (self' & w' & Hrun & _ & _ & _ & _ & Hother & Hfiles).
  destruct (Hfiles Hne) as [Hp Hb].
  exists self', w'. split; [exact Hrun|]. split; [exact Hp|].
  split; [rewrite Hp, Hb; reflexivity|exact Hother].
Qed.

(** X4: what a reader of the primary file gets. On a fresh log, after a
    run of calls on pairwise distinct dict objects, loading the primary
    file gives one record per call, in call order, and the j-th record
    is the dict the caller passed in the j-th call with ['iteration'] set
    to that call's iteration. *)
Theorem primary_file_decodes_to_the_calls
    (statistics_path now : string) (w : @Log.world pickled) calls :
  (∀ v, pickle_load (pickle_dump v) = Some v) →
  NoDup calls.*2 →
  (∀ l, l ∈ calls.*2 → is_Some (Log.heap w !! l)) →
  calls ≠ [] →
  ∃ self' w' records,
    Log.run_calls pickle_dump (Log.init statistics_path now) w calls
      = Ok (self', w')
    ∧ Log.load_from pickle_load statistics_path w' = Some records
    ∧ length records = length calls
    ∧ ∀ j it l, calls !! j = Some (it, l) →
        ∃ d, Log.heap w !! l = Some d
             ∧ records !! j = Some (<["iteration" := VInt it]> d).
Proof.
  intros Hinv Hnd Hall Hne.
  destruct (run_calls_state (Log.init statistics_path now) w calls Hall)
    as (self' & w' & Hrun & Hlist & _ & _ & Hheap & _ & Hfiles).
  destruct (Hfiles Hne) as [Hp _]. simpl in Hp, Hlist.
  assert (Halloc : ∀ l, l ∈ Log.statistics_list self'
                        → is_Some (Log.heap w' !! l)).
  { intros l Hin. rewrite Hlist in Hin. rewrite Hheap.
    destruct (Hall l Hin) as [d ->]. simpl. eauto. }
  exists self', w', (Log.deref (Log.heap w') (Log.statistics_list self')).
  split; [exact Hrun|]. split.
  { unfold Log.load_from. rewrite Hp. simpl. apply Hinv. }
  split.
  { rewrite (deref_length _ _ Halloc), Hlist, length_fmap. reflexivity. }
  intros j it l Hj.
  destruct (Hall l) as [d Hd].
  { apply list_elem_of_fmap. exists (it, l). split; [reflexivity|].
    apply list_elem_of_lookup. eauto. }
  exists d. split; [exact Hd|].
  rewrite (deref_lookup _ _ _ Halloc), Hlist, list_lookup_fmap, Hj. simpl.
  rewrite Hheap, Hd, (last_iteration_NoDup _ _ _ _ Hnd Hj). reflexivity.
Qed.

End LogRuns.



Ltac solve_allocated :=
  let l := fresh "l" in
  let Hin := fresh "Hin" in
  intros l Hin; simpl in Hin;
  repeat (apply elem_of_cons in Hin as [->|Hin]; [eexists; reflexivity|]);
  apply elem_of_nil in Hin; destruct Hin.

Ltac solve_distinct :=
  simpl;
  repeat (apply NoDup_cons; split;
          [let Hin := fresh "Hin" in
           intros Hin;
           repeat (apply elem_of_cons in Hin as [Hin|Hin]; [discriminate|]);
           apply elem_of_nil in Hin; destruct Hin|]);
  apply NoDup_nil_2.

(** X1 on a log that already holds one record, with one object passed
    twice. *)
Lemma statistics_list_is_append_only_witness :
  let self := {| Log.statistics_path := "statistics.pickle";
                 Log.backup_statistics_path := "statistics_t.pickle";
                 Log.statistics_list := [3%positive] |} in
  let calls := [(10%Z, 1%positive); (20%Z, 2%positive); (30%Z, 1%positive)] in
  ∃ self' w',
    Log.run_calls id_dump self three_records calls = Ok (self', w')
    ∧ Log.statistics_list self'
      = [3%positive] ++ [1%positive; 2%positive; 1%positive]
    ∧ length (Log.statistics_list self') = (1 + 3)%nat.
Proof.
  intros self calls.
  assert (Hrun : ∃ st, Log.run_calls id_dump self three_records calls = Ok st)
    by (eexists; reflexivity).
  destruct Hrun as [[self' w'] Hrun].
  exists self', w'. split; [exact Hrun|].
  exact (statistics_list_is_append_only id_dump self three_records calls
           self' w' Hrun).
Defined.

(** X2 on a run that passes object 1 twice and never passes object 3. *)
Lemma run_sets_iteration_of_last_call_witness :
  let calls := [(10%Z, 1%positive); (20%Z, 2%positive); (30%Z, 1%positive)] in
  (∀ l, l ∈ calls.*2 → is_Some (Log.heap three_records !! l))
  ∧ last_iteration calls 1%positive = Some 30%Z
  ∧ last_iteration calls 3%positive = None
  ∧ ∃ self' w',
      Log.run_calls id_dump (Log.init "statistics.pickle" "t") three_records calls
        = Ok (self', w')
      ∧ Log.heap w' !! 1%positive
        = with_iteration (Some 30%Z) <$> Log.heap three_records !! 1%positive
      ∧ Log.heap w' !! 3%positive = Log.heap three_records !! 3%positive.
Proof.
  intros calls.
  assert (Hall : ∀ l, l ∈ calls.*2 → is_Some (Log.heap three_records !! l))
    by solve_allocated.
  split; [exact Hall|]. split; [reflexivity|]. split; [reflexivity|].
  destruct (run_sets_iteration_of_last_call id_dump
              (Log.init "statistics.pickle" "t") three_records calls Hall)
    as (self' & w' & Hrun & Hheap & _).
  exists self', w'. split; [exact Hrun|].
  split; [exact (Hheap 1%positive)|exact (Hheap 3%positive)].
Defined.

(** X3 on a run of two calls. *)
Lemma run_writes_only_its_two_files_witness :
  let self := Log.init "statistics.pickle" "t" in
  let calls := [(10%Z, 1%positive); (20%Z, 2%positive)] in
  (∀ l, l ∈ calls.*2 → is_Some (Log.heap three_records !! l))
  ∧ calls ≠ []
  ∧ ∃ self' w',
      Log.run_calls id_dump self three_records calls = Ok (self', w')
      ∧ Log.files w' !! Log.statistics_path self
        = Some (id_dump (Log.deref (Log.heap w') (Log.statistics_list self')))
      ∧ Log.files w' !! Log.backup_statistics_path self
        = Log.files w' !! Log.statistics_path self
      ∧ (∀ path, path ≠ Log.statistics_path self →
           path ≠ Log.backup_statistics_path self →
           Log.files w' !! path = Log.files three_records !! path).
Proof.
  intros self calls.
  assert (Hall : ∀ l, l ∈ calls.*2 → is_Some (Log.heap three_records !! l))
    by solve_allocated.
  assert (Hne : calls ≠ []) by discriminate.
  split; [exact Hall|]. split; [exact Hne|].
  exact (run_writes_only_its_two_files id_dump self three_records calls Hall Hne).
Defined.

(** X4 on three calls whose iterations are not in numeric order. *)
Lemma primary_file_decodes_to_the_calls_witness :
  let calls := [(30%Z, 2%positive); (10%Z, 3%positive); (20%Z, 1%positive)] in
  (∀ v, id_load (id_dump v) = Some v)
  ∧ NoDup calls.*2
  ∧ (∀ l, l ∈ calls.*2 → is_Some (Log.heap three_records !! l))
  ∧ calls ≠ []
  ∧ ∃ self' w' records,
      Log.run_calls id_dump (Log.init "statistics.pickle" "t") three_records calls
        = Ok (self', w')
      ∧ Log.load_from id_load "statistics.pickle" w' = Some records
      ∧ length records = length calls
      ∧ ∀ j it l, calls !! j = Some (it, l) →
          ∃ d, Log.heap three_records !! l = Some d
               ∧ records !! j = Some (<["iteration" := VInt it]> d).
Proof.
  intros calls.
  assert (Hinv : ∀ v, id_load (id_dump v) = Some v) by (intros v; reflexivity).
  assert (Hnd : NoDup calls.*2) by solve_distinct.
  assert (Hall : ∀ l, l ∈ calls.*2 → is_Some (Log.heap three_records !! l))
    by solve_allocated.
  assert (Hne : calls ≠ []) by discriminate.
  split; [exact Hinv|]. split; [exact Hnd|]. split; [exact Hall|].
  split; [exact Hne|].
  exact (primary_file_decodes_to_the_calls id_dump id_load "statistics.pickle" "t"
           three_records calls Hinv Hnd Hall Hne).
Defined.

(* ===================================================================== *)
(** * Further properties of the backup path *)
(* ===================================================================== *)

Lemma append_cons a (r s : string) : String a r +:+ s = String a (r +:+ s).
Proof. reflexivity. Qed.

Lemma append_empty_r (r : string) : r +:+ "" = r.
Proof.
  induction r as [|a r IH]; [reflexivity|]. rewrite append_cons, IH. reflexivity.
Qed.

Lemma take_drop_str n p : Path.take_str n p +:+ Path.drop_str n p = p.
Proof.
  unfold Path.take_str. revert n. induction p as [|a p IH]; intros [|n];
    try reflexivity.
  cbn [String.substring Path.drop_str]. rewrite append_cons, IH. reflexivity.
Qed.

Lemma drop_str_get n j p :
  String.get j (Path.drop_str n p) = String.get (n + j) p.
Proof.
  revert p. induction n as [|n IH]; intros p; simpl; [reflexivity|].
  destruct p as [|a p]; simpl; [destruct j; reflexivity|apply IH].
Qed.

Lemma get_head j p c :
  String.get j p = Some c → j = 0%nat → ∃ rest, p = String c rest.
Proof.
  intros Hget ->. destruct p as [|a p]; simpl in Hget; [discriminate|].
  injection Hget as ->. eauto.
Qed.

(** [rfind] returns [last] or the index of an occurrence at or after [i]... *)
Lemma rfind_from_found c p : ∀ i last,
  Path.rfind_from c p i last = last
  ∨ (i <= Path.rfind_from c p i last
     ∧ String.get (Z.to_nat (Path.rfind_from c p i last - i)) p = Some c)%Z.
Proof.
  induction p as [|a p IH]; intros i last; simpl; [left; reflexivity|].
  destruct (IH (i + 1)%Z (if Ascii.eqb a c then i else last))
    as [Heq|[Hle Hget]].
  - rewrite Heq. destruct (Ascii.eqb a c) eqn:Hac; [|left; reflexivity].
    right. apply Ascii.eqb_eq in Hac as ->. rewrite Z.sub_diag. simpl.
    split; [lia|reflexivity].
  - right. split; [lia|].
    replace (Z.to_nat (Path.rfind_from c p (i + 1)
                         (if Ascii.eqb a c then i else last) - i))
      with (S (Z.to_nat (Path.rfind_from c p (i + 1)
                           (if Ascii.eqb a c then i else last) - (i + 1))))
      by lia.
    exact Hget.
Qed.

(** ... and no occurrence lies after it. *)
Lemma rfind_from_last c p : ∀ i last j,
  (last < i)%Z →
  String.get j p = Some c →
  (i + Z.of_nat j <= Path.rfind_from c p i last)%Z.
Proof.
  induction p as [|a p IH]; intros i last j Hlast Hget; simpl in *;
    [discriminate|].
  assert (Hlow : ∀ l', (i <= Path.rfind_from c p (i + 1) (if Ascii.eqb a c then i else l'))%Z
                       ∨ Ascii.eqb a c = false).
  { intros l'. destruct (Ascii.eqb a c); [left|right; reflexivity].
    destruct (rfind_from_found c p (i + 1) i) as [->|[H _]]; lia. }
  destruct j as [|j].
  - injection Hget as ->. destruct (Hlow last) as [H|H]; [lia|].
    rewrite Ascii.eqb_refl in H. discriminate.
  - assert (Hlt : ((if Ascii.eqb a c then i else last) < i + 1)%Z)
      by (destruct (Ascii.eqb a c); lia).
    pose proof (IH (i + 1)%Z _ j Hlt Hget). lia.
Qed.

(** The two halves of [splitext] make up the path; the extension is
    empty or begins with a dot, and holds no directory separator. *)
Lemma splitext_spec p :
  (Path.splitext p).1 +:+ (Path.splitext p).2 = p
  ∧ ((Path.splitext p).2 = ""
     ∨ ∃ rest, (Path.splitext p).2 = String "."%char rest)
  ∧ ∀ j, String.get j (Path.splitext p).2 ≠ Some "/"%char.
Proof.
  unfold Path.splitext, Path.rfind.
  destruct ((Path.rfind_from "/" p 0 (-1) <? Path.rfind_from "." p 0 (-1))%Z
            && Path.has_non_dot p _ _) eqn:Hcond; simpl.
  - apply andb_true_iff in Hcond as [Hlt _]. apply Z.ltb_lt in Hlt.
    split; [apply take_drop_str|].
    assert (Hsep : (-1 <= Path.rfind_from "/" p 0 (-1))%Z)
      by (destruct (rfind_from_found "/" p 0 (-1)) as [->|[H _]]; lia).
    destruct (rfind_from_found "." p 0 (-1)) as [Heq|[Hle Hget]]; [lia|].
    rewrite Z.sub_0_r in Hget. split.
    + right. apply (get_head 0); [|reflexivity].
      rewrite drop_str_get, Nat.add_0_r. exact Hget.
    + intros j Hj. rewrite drop_str_get in Hj.
      pose proof (rfind_from_last "/" p 0 (-1) _ ltac:(lia) Hj). lia.
  - split; [apply append_empty_r|]. split; [left; reflexivity|].
    intros j. destruct j; discriminate.
Qed.

Lemma string_app_inv_head (r a b : string) : r +:+ a = r +:+ b → a = b.
Proof.
  induction r as [|c r IH]; [tauto|].
  rewrite !append_cons. intros [= H]. auto.
Qed.

(** X5: the backup never lands on the primary file. Whatever the
    primary path and the timestamp, the backup path differs from the
    primary path, so the two writes of a call go to two files. *)
Theorem backup_path_differs_from_primary (statistics_path now : string) :
  Log.backup_statistics_path (Log.init statistics_path now) ≠ statistics_path.
Proof.
  simpl. unfold Log.format_backup. intros Heq.
  destruct (splitext_spec statistics_path) as (Hjoin & Hext & _).
  rewrite <- Hjoin in Heq at 2. apply string_app_inv_head in Heq.
  destruct Hext as [Hext|[rest Hext]]; rewrite Hext in Heq; discriminate.
Qed.

(** X6: the backup path is the primary path with its extension
    replaced. The primary path is its stem followed by an extension that
    is empty or begins with a dot and contains no [/]; the backup path is
    that same stem, so the same directory, followed by
    [_<timestamp>.pickle]. *)
Theorem backup_path_replaces_extension (statistics_path now : string) :
  ∃ stem ext,
    statistics_path = stem +:+ ext
    ∧ (ext = "" ∨ ∃ rest, ext = String "."%char rest)
    ∧ (∀ j, String.get j ext ≠ Some "/"%char)
    ∧ Log.backup_statistics_path (Log.init statistics_path now)
      = stem +:+ "_" +:+ now +:+ ".pickle".
Proof.
  destruct (splitext_spec statistics_path) as (Hjoin & Hext & Hsep).
  exists (Path.splitext statistics_path).1, (Path.splitext statistics_path).2.
  split; [symmetry; exact Hjoin|]. split; [exact Hext|].
  split; [exact Hsep|reflexivity].
Qed.

(* ===================================================================== *)
(** * Further properties of [Evaluator.evaluate] *)
(* ===================================================================== *)

Lemma for_each_ext {A S} (body1 body2 : S → A → result S) (xs : list A) :
  (∀ s x, x ∈ xs → body1 s x = body2 s x) →
  ∀ s, for_each xs body1 s = for_each xs body2 s.
Proof.
  induction xs as [|x xs IH]; intros Hext s; [reflexivity|].
  cbn [for_each]. rewrite (Hext s x) by left.
  destruct (body2 s x) as [s'|e]; [|reflexivity].
  apply IH. intros s0 y Hin. apply Hext. right. exact Hin.
Qed.

Lemma getitem_Some {V} (d : gmap string V) key v :
  d !! key = Some v → getitem d key = Ok v.
Proof. unfold getitem. intros ->. reflexivity. Qed.

Lemma getitem_None {V} (d : gmap string V) key :
  d !! key = None → getitem d key = Err (KeyError key).
Proof. unfold getitem. intros ->. reflexivity. Qed.

Lemma getitem_Ok_inv {V} (d : gmap string V) key v :
  getitem d key = Ok v → d !! key = Some v.
Proof. unfold getitem. destruct (d !! key); [congruence|discriminate]. Qed.

Section EvaluateMore.

Variable labels : list string.
Variable frames_per_second : Z.
Context {event : Type}.
Variable average_precision_score : out_value → out_value → result (list Q).
Variable write_submission : output → sed_params → string → result unit.
Variable read_csv_file_for_sed_eval_tool :
  string → result (gmap string (list event)).
Context {event_metric segment_metric : Type}.
Variable EventBasedMetrics : list string → event_metric.
Variable event_evaluate :
  event_metric → list event → list event → result event_metric.
Variable event_results : event_metric → gmap string (gmap string Q).
Variable SegmentBasedMetrics : list string → segment_metric.
Variable segment_evaluate :
  segment_metric → list event → list event → result segment_metric.
Variable segment_results : segment_metric → gmap string (gmap string Q).

Local Abbreviation evaluate :=
  (Evaluator.evaluate labels frames_per_second average_precision_score
     write_submission read_csv_file_for_sed_eval_tool
     EventBasedMetrics event_evaluate event_results
     SegmentBasedMetrics segment_evaluate segment_results).

(** The four lookups of [metrics_record], one at a time. *)
Lemma getitem2_Ok {V} (m : gmap string (gmap string V)) k1 k2 v :
  getitem2 m k1 k2 = Ok v ↔ ∃ inner, m !! k1 = Some inner ∧ inner !! k2 = Some v.
Proof.
  unfold getitem2, getitem. destruct (m !! k1) as [inner|]; simpl.
  - destruct (inner !! k2) as [v'|] eqn:Hv; simpl.
    + split; [intros [= ->]; eauto|]. intros (i & [= <-] & Hi). congruence.
    + split; [discriminate|]. intros (i & [= <-] & Hi). congruence.
  - split; [discriminate|]. intros (i & Hi & _). discriminate.
Qed.

Lemma getitem2_Err {V} (m : gmap string (gmap string V)) k1 k2 e :
  getitem2 m k1 k2 = Err e → e = KeyError k1 ∨ e = KeyError k2.
Proof.
  unfold getitem2, getitem. destruct (m !! k1) as [inner|]; simpl.
  - destruct (inner !! k2); simpl; [discriminate|]. intros [= <-]. auto.
  - intros [= <-]. auto.
Qed.

(** X10: what [evaluate] keeps of an accumulator's class-wise averages.
    The sub-record is built exactly when the results hold
    ['f_measure']['f_measure'] and, under ['error_rate'], the three rates;
    it then holds those four numbers under the four flat keys and nothing
    else of the results. Otherwise the failure is a [KeyError] naming
    one of the keys read. *)
Theorem metrics_record_keeps_four_averages (m : gmap string (gmap string Q)) :
  (∀ v, Evaluator.metrics_record m = Ok v ↔
     ∃ fm er f e d i,
       m !! "f_measure" = Some fm ∧ fm !! "f_measure" = Some f
       ∧ m !! "error_rate" = Some er ∧ er !! "error_rate" = Some e
       ∧ er !! "deletion_rate" = Some d ∧ er !! "insertion_rate" = Some i
       ∧ v = VMetrics (<["f_measure" := f]>
                      (<["error_rate" := e]>
                      (<["deletion_rate" := d]>
                      (<["insertion_rate" := i]> ∅)))))
  ∧ (∀ err, Evaluator.metrics_record m = Err err →
       ∃ key, err = KeyError key
              ∧ key ∈ ["f_measure"; "error_rate"; "deletion_rate";
                       "insertion_rate"]).
Proof.
  unfold Evaluator.metrics_record. split.
  - intros v. split.
    + destruct (getitem2 m "f_measure" "f_measure") as [f|] eqn:Hf; [|discriminate].
      destruct (getitem2 m "error_rate" "error_rate") as [e|] eqn:He; [|discriminate].
      destruct (getitem2 m "error_rate" "deletion_rate") as [d|] eqn:Hd; [|discriminate].
      destruct (getitem2 m "error_rate" "insertion_rate") as [i|] eqn:Hi; [|discriminate].
      simpl. intros [= <-].
      apply getitem2_Ok in Hf as (fm & Hfm & Hf).
      apply getitem2_Ok in He as (er & Her & He).
      apply getitem2_Ok in Hd as (er' & Her' & Hd).
      apply getitem2_Ok in Hi as (er'' & Her'' & Hi).
      assert (er' = er) as -> by congruence.
      assert (er'' = er) as -> by congruence.
      exists fm, er, f, e, d, i. auto 10.
    + intros (fm & er & f & e & d & i & Hfm & Hf & Her & He & Hd & Hi & ->).
      rewrite (proj2 (getitem2_Ok m "f_measure" "f_measure" f)) by eauto.
      rewrite (proj2 (getitem2_Ok m "error_rate" "error_rate" e)) by eauto.
      rewrite (proj2 (getitem2_Ok m "error_rate" "deletion_rate" d)) by eauto.
      rewrite (proj2 (getitem2_Ok m "error_rate" "insertion_rate" i)) by eauto.
      reflexivity.
  - intros err.
    assert (Hkeys : ∀ k1 k2 : string,
              k1 ∈ ["f_measure"; "error_rate"] →
              k2 ∈ ["f_measure"; "error_rate"; "deletion_rate"; "insertion_rate"] →
              ∀ e, getitem2 m k1 k2 = Err e →
              ∃ key, e = KeyError key
                     ∧ key ∈ ["f_measure"; "error_rate"; "deletion_rate";
                              "insertion_rate"]).
    { intros k1 k2 H1 H2 e He. apply getitem2_Err in He as [->| ->].
      - exists k1. split; [reflexivity|].
        apply elem_of_cons in H1 as [->|H1]; [left|].
        apply elem_of_cons in H1 as [->|H1]; [right; left|].
        apply elem_of_nil in H1. destruct H1.
      - eauto. }
    destruct (getitem2 m "f_measure" "f_measure") as [f|e1] eqn:Hf.
    2:{ simpl. intros [= <-]. eapply Hkeys; [| |exact Hf]; repeat constructor. }
    destruct (getitem2 m "error_rate" "error_rate") as [e|e1] eqn:He.
    2:{ simpl. intros [= <-]. eapply Hkeys; [| |exact He]; repeat constructor. }
    destruct (getitem2 m "error_rate" "deletion_rate") as [d|e1] eqn:Hd.
    2:{ simpl. intros [= <-]. eapply Hkeys; [| |exact Hd]; repeat constructor. }
    destruct (getitem2 m "error_rate" "insertion_rate") as [i|e1] eqn:Hi.
    2:{ simpl. intros [= <-]. eapply Hkeys; [| |exact Hi]; repeat constructor. }
    discriminate.
Qed.

(** X7: when [evaluate] returns nothing. The call ends without a record,
    and without an exception, exactly when the forward pass returned a
    mapping with clip-level targets and clipwise scores, the average
    precision was computed, and the mapping has no ['strong_target']. *)
Theorem evaluate_returns_none_iff
    (metadata_path submission_path : string) (fwd : result output) :
  evaluate metadata_path submission_path fwd = Ok None ↔
  ∃ output_dict weak_target clipwise_output average_precision,
    fwd = Ok output_dict
    ∧ output_dict !! "weak_target" = Some weak_target
    ∧ output_dict !! "clipwise_output" = Some clipwise_output
    ∧ average_precision_score weak_target clipwise_output = Ok average_precision
    ∧ output_dict !! "strong_target" = None.
Proof.
  split.
  - intros H. unfold Evaluator.evaluate in H.
    destruct fwd as [od|e]; [|discriminate]. revert H. bind_ok.
    destruct (contains od "weak_target") eqn:Hw; [|discriminate].
    destruct (getitem od "weak_target") as [wt|] eqn:Hwt; [|discriminate].
    bind_ok.
    destruct (getitem od "clipwise_output") as [co|] eqn:Hco; [|discriminate].
    bind_ok.
    destruct (average_precision_score wt co) as [ap|] eqn:Hap; [|discriminate].
    bind_ok.
    apply getitem_Ok_inv in Hwt, Hco.
    destruct (contains od "strong_target") eqn:Hs.
    + intros H. exfalso. split_binds H. discriminate.
    + intros _. apply contains_false in Hs. exists od, wt, co, ap. auto.
  - intros (od & wt & co & ap & -> & Hwt & Hco & Hap & Hs).
    unfold Evaluator.evaluate. bind_ok.
    rewrite (proj2 (contains_true od "weak_target")) by eauto.
    rewrite (getitem_Some _ _ _ Hwt), (getitem_Some _ _ _ Hco). bind_ok.
    rewrite Hap. bind_ok.
    rewrite (proj2 (contains_false od "strong_target") Hs). reflexivity.
Qed.

(** X8: the result on a split with both kinds of target. When the
    collaborators go through and both accumulators report the four
    class-wise averages, [evaluate] returns the record made of the
    average precision and the two metric sub-records, whatever the clip
    list is: empty, with repeated clips, or with clips that the
    reference or the submission does not know. The accumulators are fed
    once per entry of the clip list, in order. *)
Theorem evaluate_with_both_targets
    (metadata_path submission_path : string) (output_dict : output)
    (weak_target clipwise_output strong_target : out_value)
    (average_precision : list Q)
    (reference_dict predict_dict : gmap string (list event))
    (audio_names : list string) (acc : event_metric * segment_metric)
    (event_metrics segment_metrics : stat_value) :
  output_dict !! "weak_target" = Some weak_target →
  output_dict !! "clipwise_output" = Some clipwise_output →
  average_precision_score weak_target clipwise_output = Ok average_precision →
  output_dict !! "strong_target" = Some strong_target →
  write_submission output_dict (sed_params_dict frames_per_second)
    submission_path = Ok () →
  read_csv_file_for_sed_eval_tool metadata_path = Ok reference_dict →
  read_csv_file_for_sed_eval_tool submission_path = Ok predict_dict →
  output_dict !! "audio_name" = Some (ONames audio_names) →
  feed_clips event_evaluate segment_evaluate reference_dict predict_dict
    audio_names (EventBasedMetrics labels, SegmentBasedMetrics labels)
    = Ok acc →
  Evaluator.metrics_record (event_results acc.1) = Ok event_metrics →
  Evaluator.metrics_record (segment_results acc.2) = Ok segment_metrics →
  evaluate metadata_path submission_path (Ok output_dict)
  = Ok (Some (<["segment_metrics" := segment_metrics]>
             (<["event_metrics" := event_metrics]>
             (<["average_precision" := VArray average_precision]> ∅)))).
Proof.
  intros Hwt Hco Hap Hst Hwrite Href Hpred Hnames Hfeed Hem Hsm.
  unfold Evaluator.evaluate. bind_ok.
  rewrite (proj2 (contains_true output_dict "weak_target")) by eauto.
  rewrite (getitem_Some _ _ _ Hwt), (getitem_Some _ _ _ Hco). bind_ok.
  rewrite Hap. bind_ok.
  rewrite (proj2 (contains_true output_dict "strong_target")) by eauto.
  rewrite Hwrite. bind_ok. rewrite Href. bind_ok. rewrite Hpred. bind_ok.
  rewrite (getitem_Some _ _ _ Hnames). bind_ok. cbn [as_names]. bind_ok.
  rewrite clip_loop_feeds, Hfeed. bind_ok. rewrite Hem. bind_ok.
  rewrite Hsm. bind_ok. reflexivity.
Qed.

(** X9: the shape of a returned record. A record comes back only for a
    mapping that has both ['weak_target'] and ['strong_target']; its
    keys are exactly ['average_precision'], ['event_metrics'] and
    ['segment_metrics'], and it has no ['iteration'] yet. *)
Theorem evaluate_record_keys
    (metadata_path submission_path : string) (fwd : result output)
    (statistics : statistics_dict) :
  evaluate metadata_path submission_path fwd = Ok (Some statistics) →
  (∃ output_dict, fwd = Ok output_dict
                  ∧ is_Some (output_dict !! "weak_target")
                  ∧ is_Some (output_dict !! "strong_target"))
  ∧ (∀ key, is_Some (statistics !! key) ↔
            key ∈ ["average_precision"; "event_metrics"; "segment_metrics"])
  ∧ statistics !! "iteration" = None.
Proof.
  intros H. unfold Evaluator.evaluate in H.
  destruct fwd as [od|e]; [|discriminate]. revert H. bind_ok.
  destruct (contains od "weak_target") eqn:Hw; [|discriminate].
  destruct (getitem od "weak_target") as [wt|]; [|discriminate]. bind_ok.
  destruct (getitem od "clipwise_output") as [co|]; [|discriminate]. bind_ok.
  destruct (average_precision_score wt co) as [ap|]; [|discriminate].
  bind_ok.
  destruct (contains od "strong_target") eqn:Hs; [|discriminate].
  intros H. split_binds H. injection H as <-.
  apply contains_true in Hw, Hs. split; [eauto|]. split.
  - intros key. split.
    + intros Hkey.
      destruct (decide (key = "segment_metrics")) as [->|H1];
        [right; right; left|].
      destruct (decide (key = "event_metrics")) as [->|H2]; [right; left|].
      destruct (decide (key = "average_precision")) as [->|H3]; [left|].
      rewrite !lookup_insert_ne, lookup_empty in Hkey by congruence.
      destruct Hkey as [? ?]. discriminate.
    + intros Hin.
      repeat (apply elem_of_cons in Hin as [->|Hin];
              [rewrite ?lookup_insert_eq, ?lookup_insert_ne by discriminate;
               rewrite ?lookup_insert_eq, ?lookup_insert_ne by discriminate;
               rewrite ?lookup_insert_eq; eauto|]).
      apply elem_of_nil in Hin. destruct Hin.
  - rewrite !lookup_insert_ne by discriminate. apply lookup_empty.
Qed.

(** X11: failures on the way. A failed forward pass, average-precision
    computation, submission write or reference read ends [evaluate] with
    that very exception; a mapping with clip-level targets but no
    ['clipwise_output'], or with frame-level targets but no
    ['audio_name'], ends it with the [KeyError] of that key. *)
Theorem evaluate_propagates_failures
    (metadata_path submission_path : string) (output_dict : output)
    (weak_target clipwise_output strong_target : out_value)
    (average_precision : list Q) (e : exn) :
  evaluate metadata_path submission_path (Err e) = Err e
  ∧ (output_dict !! "weak_target" = Some weak_target →
     (output_dict !! "clipwise_output" = None →
      evaluate metadata_path submission_path (Ok output_dict)
      = Err (KeyError "clipwise_output"))
     ∧ (output_dict !! "clipwise_output" = Some clipwise_output →
        (average_precision_score weak_target clipwise_output = Err e →
         evaluate metadata_path submission_path (Ok output_dict) = Err e)
        ∧ (average_precision_score weak_target clipwise_output
             = Ok average_precision →
           output_dict !! "strong_target" = Some strong_target →
           (write_submission output_dict (sed_params_dict frames_per_second)
              submission_path = Err e →
            evaluate metadata_path submission_path (Ok output_dict) = Err e)
           ∧ (write_submission output_dict (sed_params_dict frames_per_second)
                submission_path = Ok () →
              (read_csv_file_for_sed_eval_tool metadata_path = Err e →
               evaluate metadata_path submission_path (Ok output_dict) = Err e)
              ∧ (∀ reference_dict predict_dict,
                   read_csv_file_for_sed_eval_tool metadata_path
                     = Ok reference_dict →
                   read_csv_file_for_sed_eval_tool submission_path
                     = Ok predict_dict →
                   output_dict !! "audio_name" = None →
                   evaluate metadata_path submission_path (Ok output_dict)
                   = Err (KeyError "audio_name")))))).
Proof.
  split; [reflexivity|]. intros Hwt.
  unfold Evaluator.evaluate. bind_ok.
  rewrite (proj2 (contains_true output_dict "weak_target")) by eauto.
  rewrite (getitem_Some _ _ _ Hwt). bind_ok. split.
  { intros Hco. rewrite (getitem_None _ _ Hco). reflexivity. }
  intros Hco. rewrite (getitem_Some _ _ _ Hco). bind_ok. split.
  { intros ->. reflexivity. }
  intros -> Hst. bind_ok.
  rewrite (proj2 (contains_true output_dict "strong_target")) by eauto. split.
  { intros ->. reflexivity. }
  intros ->. bind_ok. split.
  { intros ->. reflexivity. }
  intros reference_dict predict_dict Href Hpred Hnames.
  rewrite Href. bind_ok. rewrite Hpred. bind_ok.
  rewrite (getitem_None _ _ Hnames). reflexivity.
Qed.

End EvaluateMore.

(** X8 on a split with both targets and accumulators that report a
    perfect score. *)
Lemma evaluate_with_both_targets_witness :
  let output_dict := strong_output (8 # 10) in
  let perfect :=
    VMetrics (<["f_measure" := 1%Q]>
             (<["error_rate" := 0%Q]>
             (<["deletion_rate" := 0%Q]>
             (<["insertion_rate" := 0%Q]> ∅)))) in
  output_dict !! "weak_target" = Some (OArray (const_array [1; 1]%nat 1))
  ∧ output_dict !! "clipwise_output"
    = Some (OArray (const_array [1; 1]%nat (8 # 10)))
  ∧ output_dict !! "strong_target"
    = Some (OArray (const_array [1; 1; 1]%nat 1))
  ∧ output_dict !! "audio_name" = Some (ONames ["clip_a"])
  ∧ Evaluator.metrics_record (perfect_results ()) = Ok perfect
  ∧ Evaluator.evaluate ["Speech"] 50 aps_ok write_ok read_empty
      unit_metric unit_evaluate perfect_results
      unit_metric unit_evaluate perfect_results
      "metadata.csv" "submission.csv" (Ok output_dict)
    = Ok (Some (<["segment_metrics" := perfect]>
               (<["event_metrics" := perfect]>
               (<["average_precision" := VArray [1%Q]]> ∅)))).
Proof.
  intros output_dict perfect.
  repeat (split; [reflexivity|]).
  apply (evaluate_with_both_targets ["Speech"] 50 aps_ok write_ok read_empty
           unit_metric unit_evaluate perfect_results
           unit_metric unit_evaluate perfect_results
           "metadata.csv" "submission.csv" output_dict
           (OArray (const_array [1; 1]%nat 1))
           (OArray (const_array [1; 1]%nat (8 # 10)))
           (OArray (const_array [1; 1; 1]%nat 1))
           [1%Q] ∅ ∅ ["clip_a"] ((), ()) perfect perfect);
    reflexivity.
Defined.

(** X9 on the same call. *)
Lemma evaluate_record_keys_witness :
  ∃ statistics,
    Evaluator.evaluate ["Speech"] 50 aps_ok write_ok read_empty
      unit_metric unit_evaluate perfect_results
      unit_metric unit_evaluate perfect_results
      "metadata.csv" "submission.csv" (Ok (strong_output (8 # 10)))
    = Ok (Some statistics)
    ∧ (∀ key, is_Some (statistics !! key) ↔
              key ∈ ["average_precision"; "event_metrics"; "segment_metrics"])
    ∧ statistics !! "iteration" = None.
Proof.
  eexists. split; [reflexivity|].
  eapply (evaluate_record_keys ["Speech"] 50 aps_ok write_ok read_empty
            unit_metric unit_evaluate perfect_results
            unit_metric unit_evaluate perfect_results
            "metadata.csv" "submission.csv" (Ok (strong_output (8 # 10)))).
  reflexivity.
Defined.

(* ===================================================================== *)
(** * Further properties of [Evaluator.visualize] *)
(* ===================================================================== *)

Lemma for_each_unit_all {A} (body : unit → A → result unit) (xs : list A) :
  (∀ x, x ∈ xs → body () x = Ok ()) → for_each xs body () = Ok ().
Proof.
  induction xs as [|x xs IH]; intros Hall; [reflexivity|].
  cbn [for_each]. rewrite (Hall x) by left.
  apply IH. intros y Hin. apply Hall. right. exact Hin.
Qed.

Section VisualizeMore.

Variable labels : list string.
Variable frames_per_second : Z.
Variable plot : output → nat → ndarray → result unit.

Local Abbreviation p := (sed_params_dict frames_per_second).

(** In this module the loop over classes goes through only by skipping
    every class, and then hands back the array it was given. *)
Lemma class_loop_closed call_global (output_dict : output) n (ks : list nat) :
  ∀ ep ep',
    for_each ks (Evaluator.class_step call_global module_globals p output_dict n) ep
      = Ok ep'
    ↔ ep' = ep
      ∧ ∀ k, k ∈ ks →
          ∃ c, array_item output_dict "clipwise_output" [n; k] = Ok c
               ∧ gate p c = false.
Proof.
  induction ks as [|k ks IH]; intros ep ep'; cbn [for_each].
  - split.
    + intros [= <-]. split; [reflexivity|]. intros k Hin.
      apply elem_of_nil in Hin. destruct Hin.
    + intros [-> _]. reflexivity.
  - rewrite class_step_module. split.
    + destruct (array_item output_dict "clipwise_output" [n; k]) as [c|e] eqn:Hc;
        [|discriminate].
      destruct (gate p c) eqn:Hg; [discriminate|].
      intros Hrest. apply IH in Hrest as [-> Hall]. split; [reflexivity|].
      intros k' Hin. apply elem_of_cons in Hin as [->|Hin]; eauto.
    + intros [-> Hall]. destruct (Hall k) as (c & -> & ->); [left|].
      apply IH. split; [reflexivity|]. intros k' Hin. apply Hall. right. exact Hin.
Qed.

(** X12: [visualize] never runs the detector. Whatever calling a bound
    global would do, the outcome of [visualize] is the same: the name
    [activity_detection] is never resolved, so nothing is ever called. *)
Theorem visualize_never_calls_detector
    (call_global call_global' : string → detector_args → result (list (nat * nat)))
    (fwd : result output) :
  Evaluator.visualize labels frames_per_second call_global plot fwd
  = Evaluator.visualize labels frames_per_second call_global' plot fwd.
Proof.
  unfold Evaluator.visualize, Evaluator.visualize_in.
  destruct fwd as [od|e]; [|reflexivity]. bind_ok.
  destruct (getitem od "framewise_output" ≫= as_array) as [fw|e]; [|reflexivity].
  bind_ok. destruct (unpack_shape3 fw) as [[[A F] C]|e]; [|reflexivity]. bind_ok.
  apply for_each_ext. intros [] n _. unfold Evaluator.visualize_clip.
  destruct (Evaluator.print_clip labels od C n) as [[]|e]; [|reflexivity]. bind_ok.
  rewrite (for_each_ext
             (Evaluator.class_step call_global module_globals p od n)
             (Evaluator.class_step call_global' module_globals p od n));
    [reflexivity|].
  intros ep k _. rewrite !class_step_module. reflexivity.
Qed.

(** One clip goes through exactly when its prints and its plot do and no
    class of it is above the gate; the plot then shows no event. *)
Lemma visualize_clip_ok call_global (output_dict : output) F C n :
  Evaluator.visualize_clip labels call_global plot module_globals p
    output_dict F C () n = Ok ()
  ↔ Evaluator.print_clip labels output_dict C n = Ok ()
    ∧ (∀ k c, (k < C)%nat →
         array_item output_dict "clipwise_output" [n; k] = Ok c →
         (c <= sed_high_threshold p)%Q)
    ∧ plot output_dict n (zeros [F; C]) = Ok ().
Proof.
  unfold Evaluator.visualize_clip.
  destruct (Evaluator.print_clip labels output_dict C n) as [[]|e] eqn:Hprint.
  2:{ split; [discriminate|]. intros (H & _). discriminate. }
  bind_ok.
  destruct (for_each (seq 0 C)
              (Evaluator.class_step call_global module_globals p output_dict n)
              (zeros [F; C])) as [ep|e] eqn:Hloop.
  - apply class_loop_closed in Hloop as [-> Hall]. bind_ok. split.
    + intros Hplot. split; [reflexivity|]. split; [|exact Hplot].
      intros k c Hk Hc. destruct (Hall k) as (c' & Hc' & Hg);
        [apply elem_of_seq; lia|].
      assert (c' = c) as -> by congruence. apply Qgtb_false. exact Hg.
    + intros (_ & _ & Hplot). exact Hplot.
  - split; [discriminate|]. intros (_ & Hclosed & _). exfalso.
    assert (Hok : for_each (seq 0 C)
              (Evaluator.class_step call_global module_globals p output_dict n)
              (zeros [F; C]) = Ok (zeros [F; C])).
    { apply class_loop_closed. split; [reflexivity|]. intros k Hin.
      apply elem_of_seq in Hin.
      destruct (print_clip_clipwise labels output_dict C n k Hprint) as [c Hc];
        [lia|].
      exists c. split; [exact Hc|]. apply Qgtb_false. apply (Hclosed k); [lia|exact Hc]. }
    congruence.
Qed.

(** X13: when [visualize] completes. On a mapping whose framewise output
    has shape (clips, frames, classes), the call returns normally
    exactly when, for every clip, the prints go through, no class has a
    clipwise score above [sed_high_threshold], and the plot of that clip
    with an all-zero event prediction goes through. In particular a
    batch of zero clips completes. *)
Theorem visualize_completes_iff call_global (output_dict : output)
    (framewise : ndarray) (audios_num frames_num classes_num : nat) :
  output_dict !! "framewise_output" = Some (OArray framewise) →
  shape framewise = [audios_num; frames_num; classes_num] →
  Evaluator.visualize labels frames_per_second call_global plot (Ok output_dict)
    = Ok ()
  ↔ ∀ n, (n < audios_num)%nat →
      Evaluator.print_clip labels output_dict classes_num n = Ok ()
      ∧ (∀ k c, (k < classes_num)%nat →
           array_item output_dict "clipwise_output" [n; k] = Ok c →
           (c <= sed_high_threshold p)%Q)
      ∧ plot output_dict n (zeros [frames_num; classes_num]) = Ok ().
Proof.
  intros Hfw Hshape.
  unfold Evaluator.visualize, Evaluator.visualize_in. bind_ok.
  rewrite (getitem_Some _ _ _ Hfw). bind_ok. cbn [as_array]. bind_ok.
  unfold unpack_shape3. rewrite Hshape. bind_ok. split.
  - intros Hrun n Hn. apply visualize_clip_ok with (call_global := call_global).
    apply (for_each_unit_ok _ _ _ Hrun). apply elem_of_seq. lia.
  - intros Hall. apply for_each_unit_all. intros n Hin. apply elem_of_seq in Hin.
    apply visualize_clip_ok. apply Hall. lia.
Qed.

(** X14: the event panel is always empty. Every plot that [visualize]
    makes receives the all-zero event prediction: giving the plotting
    block zeros instead of the array built by the class loop changes
    nothing. *)
Theorem visualize_plots_no_event call_global (output_dict : output)
    (framewise : ndarray) (audios_num frames_num classes_num : nat) :
  output_dict !! "framewise_output" = Some (OArray framewise) →
  shape framewise = [audios_num; frames_num; classes_num] →
  Evaluator.visualize labels frames_per_second call_global plot (Ok output_dict)
  = Evaluator.visualize labels frames_per_second call_global
      (λ od n _, plot od n (zeros [frames_num; classes_num])) (Ok output_dict).
Proof.
  intros Hfw Hshape.
  unfold Evaluator.visualize, Evaluator.visualize_in. bind_ok.
  rewrite (getitem_Some _ _ _ Hfw). bind_ok. cbn [as_array]. bind_ok.
  unfold unpack_shape3. rewrite Hshape. bind_ok.
  apply for_each_ext. intros [] n _. unfold Evaluator.visualize_clip.
  destruct (Evaluator.print_clip labels output_dict classes_num n) as [[]|e];
    [|reflexivity].
  bind_ok.
  destruct (for_each (seq 0 classes_num)
              (Evaluator.class_step call_global module_globals p output_dict n)
              (zeros [frames_num; classes_num])) as [ep|e] eqn:Hloop;
    [|reflexivity].
  apply class_loop_closed in Hloop as [-> _]. reflexivity.
Qed.

End VisualizeMore.

(** X13 on one clip scored 0.5, below the gate. *)
Lemma visualize_completes_iff_witness :
  let output_dict := weak_output (1 # 2) in
  output_dict !! "framewise_output"
    = Some (OArray (const_array [1; 1; 1]%nat (1 # 2)))
  ∧ shape (const_array [1; 1; 1]%nat (1 # 2)) = [1; 1; 1]%nat
  ∧ Evaluator.visualize ["Speech"] 50 call_none plot_ok (Ok output_dict) = Ok ().
Proof.
  intros output_dict. split; [reflexivity|]. split; [reflexivity|].
  apply (proj2 (visualize_completes_iff ["Speech"] 50 plot_ok call_none output_dict
                  (const_array [1; 1; 1]%nat (1 # 2)) 1 1 1 eq_refl eq_refl)).
  intros n Hn. assert (n = 0)%nat as -> by lia.
  split; [reflexivity|]. split; [|reflexivity].
  intros k c Hk Hc. assert (k = 0)%nat as -> by lia.
  change (Ok (1 # 2)%Q = Ok c) in Hc. injection Hc as <-. discriminate.
Defined.

(** X14 on one clip scored 0.5. *)
Lemma visualize_plots_no_event_witness :
  let output_dict := weak_output (1 # 2) in
  output_dict !! "framewise_output"
    = Some (OArray (const_array [1; 1; 1]%nat (1 # 2)))
  ∧ shape (const_array [1; 1; 1]%nat (1 # 2)) = [1; 1; 1]%nat
  ∧ Evaluator.visualize ["Speech"] 50 call_none plot_ok (Ok output_dict)
    = Evaluator.visualize ["Speech"] 50 call_none
        (λ od n _, plot_ok od n (zeros [1; 1]%nat)) (Ok output_dict).
Proof.
  intros output_dict. split; [reflexivity|]. split; [reflexivity|].
  exact (visualize_plots_no_event ["Speech"] 50 plot_ok call_none output_dict
           (const_array [1; 1; 1]%nat (1 # 2)) 1 1 1 eq_refl eq_refl).
Defined.

(** Marking keeps the shape of the array. *)
Lemma mark_pairs_shape k pairs : ∀ ep,
  shape (Evaluator.mark_pairs ep k pairs) = shape ep.
Proof.
  unfold Evaluator.mark_pairs.
  induction pairs as [|pair pairs IH]; intros ep; [reflexivity|].
  cbn [fold_left]. rewrite IH. reflexivity.
Qed.

(** X15: what lines 200-201 draw. On an array of shape (frames,
    classes) and a class index in range, after the pairs of class [k]
    are marked, a cell of column [k] is 1 when its frame is below
    [frames] and inside one of the pairs [[bgn, fin)]; every other cell,
    in column [k] or in another column, keeps its value, and the shape
    is unchanged. *)
Theorem mark_pairs_cells (event_prediction : ndarray)
    (frames_num classes_num k : nat) (bgn_fin_pairs : list (nat * nat))
    (t k' : nat) :
  shape event_prediction = [frames_num; classes_num] →
  (k < classes_num)%nat →
  shape (Evaluator.mark_pairs event_prediction k bgn_fin_pairs)
    = [frames_num; classes_num]
  ∧ item (Evaluator.mark_pairs event_prediction k bgn_fin_pairs) [t; k']
    = if (k' =? k)%nat && (t <? frames_num)%nat
         && existsb (λ pair, (pair.1 <=? t)%nat && (t <? pair.2)%nat)
              bgn_fin_pairs
      then 1%Q
      else item event_prediction [t; k'].
Proof.
  intros Hshape Hk. split; [rewrite mark_pairs_shape; exact Hshape|].
  revert event_prediction Hshape. unfold Evaluator.mark_pairs.
  induction bgn_fin_pairs as [|[bgn fin] pairs IH]; intros ep Hshape.
  - cbn [fold_left existsb]. rewrite !andb_false_r. reflexivity.
  - cbn [fold_left existsb fst snd].
    rewrite (IH (assign_ones ep bgn fin k)) by exact Hshape.
    cbn [assign_ones item]. rewrite Hshape. cbn [in_bounds].
    destruct (k' =? k)%nat eqn:Hkk; cbn [andb];
      [|rewrite !andb_false_r; reflexivity].
    apply Nat.eqb_eq in Hkk as ->.
    rewrite (proj2 (Nat.ltb_lt k classes_num) Hk).
    destruct (t <? frames_num)%nat; cbn [andb];
      [|rewrite !andb_false_r; reflexivity].
    destruct (existsb _ pairs); [rewrite orb_true_r; reflexivity|].
    rewrite orb_false_r, !andb_true_r. reflexivity.
Qed.

(** X15 on a 4-frame, 2-class array and the pairs [(1, 3)] of class 1:
    frame 2 of class 1 is drawn, frame 3 is not. *)
Lemma mark_pairs_cells_witness :
  shape (zeros [4; 2]%nat) = [4; 2]%nat
  ∧ (1 < 2)%nat
  ∧ item (Evaluator.mark_pairs (zeros [4; 2]%nat) 1 [(1, 3)]%nat) [2; 1]%nat = 1%Q
  ∧ item (Evaluator.mark_pairs (zeros [4; 2]%nat) 1 [(1, 3)]%nat) [3; 1]%nat = 0%Q.
Proof.
  split; [reflexivity|]. split; [lia|]. split.
  - exact (proj2 (mark_pairs_cells (zeros [4; 2]%nat) 4 2 1 [(1, 3)]%nat 2 1
                    eq_refl ltac:(lia))).
  - exact (proj2 (mark_pairs_cells (zeros [4; 2]%nat) 4 2 1 [(1, 3)]%nat 3 1
                    eq_refl ltac:(lia))).
Defined.
